(** * The Elster protocol layer of elster2mqtt

    A shallow embedding of [src/elster2mqtt/elster2mqtt.py]: the frame codec
    ([encode_elster_data], [decode_elster_data]), the protocol message
    ([ElsterMessage] with [formatted_value]), the register directory
    ([ElsterBus.__init__], [config_lookup]) and the bus session
    ([ElsterBus.read]), followed by the properties proved about them.

    Python integers are [Z] (with [Z.land], [Z.lor], [Z.shiftl], [Z.shiftr],
    which agree with Python's operators on negative numbers as well), lists of
    byte values are [list Z], [str] is [string] (restricted to the characters
    a [string] holds), [None]-able arguments are [option], the directory is a
    finite map, and a raised exception is the [Raise] case of [result]. *)

From Stdlib Require Import ZArith Lia Bool Ascii String Floats.
From stdpp Require Import base option list strings pretty gmap.

Local Open Scope Z_scope.

(** ** Exceptions and the result monad *)

(** The exception classes of the module ([ElsterError] and its four
    subclasses) and the built-in exceptions its statements can raise. *)
Inductive exn : Type :=
  | ElsterDataSizeError
  | ElsterDataByte2Error
  | ElsterInvalidName
  | ElsterReadTimedOut
  | TypeError
  | IndexError
  | KeyError
  | ValueError
  | OverflowError.

Global Instance exn_eq_dec : EqDecision exn.
Proof. solve_decision. Defined.

(** [isinstance(e, ElsterError)]: what [except ElsterError] catches. *)
Definition is_ElsterError (e : exn) : bool :=
  match e with
  | ElsterDataSizeError | ElsterDataByte2Error
  | ElsterInvalidName | ElsterReadTimedOut => true
  | _ => false
  end.

Inductive result (A : Type) : Type :=
  | Ok (a : A)
  | Raise (e : exn).
Arguments Ok {A} a.
Arguments Raise {A} e.

Global Instance result_ret : MRet result := fun _ a => Ok a.
Global Instance result_bind : MBind result := fun _ _ f m =>
  match m with
  | Ok a => f a
  | Raise e => Raise e
  end.

(** Python truthiness of an optional string: [None] and [''] are false. *)
Definition truthy (s : option string) : bool :=
  match s with
  | None => false
  | Some s => negb (String.eqb s "")
  end.

(** ** Frame codec *)

Definition TYPE_REQUEST : Z := 0x01.
Definition TYPE_RESPONSE : Z := 0x02.

(** [encode_elster_data(receiver, register, value=None)] on integers; the
    list is allocated with zeros and then assigned index by index, as in
    the source. *)
Definition encode_elster_data (receiver register : Z) (value : option Z)
  : list Z :=
  let msg_type :=
    match value with None => TYPE_REQUEST | Some _ => TYPE_RESPONSE end in
  let data :=
    match value with None => replicate 5 0 | Some _ => replicate 7 0 end in
  let data := <[0%nat := Z.lor (Z.land (Z.shiftr receiver 3) 0xf0)
                               (Z.land msg_type 0x0f)]> data in
  let data := <[1%nat := Z.land receiver 0x7f]> data in
  let data := <[2%nat := 0xfa]> data in
  let data := <[3%nat := Z.land (Z.shiftr register 8) 0xff]> data in
  let data := <[4%nat := Z.land register 0xff]> data in
  match value with
  | Some value =>
      let data := <[5%nat := Z.land (Z.shiftr value 8) 0xff]> data in
      <[6%nat := Z.land value 0xff]> data
  | None => data
  end.

(** [data[i]] for a literal index [i]: [IndexError] past the end. *)
Definition getitem (data : list Z) (i : nat) : result Z :=
  match data !! i with
  | Some x => Ok x
  | None => Raise IndexError
  end.

(** [decode_elster_data(data, size=7)]; the subscripts are evaluated in the
    order of the source. *)
Definition decode_elster_data (data : list Z) (size : Z)
  : result (Z * Z * Z * option Z) :=
  if negb (Z.of_nat (length data) =? size) then Raise ElsterDataSizeError else
  d2 ← getitem data 2;
  if negb (d2 =? 0xfa) then Raise ElsterDataByte2Error else
  d0 ← getitem data 0;
  let msg_type := Z.land d0 0x0f in
  d1 ← getitem data 1;
  let receiver := Z.lor (Z.shiftl (Z.land d0 0xf0) 3) (Z.land d1 0x7f) in
  d3 ← getitem data 3;
  d4 ← getitem data 4;
  let register := Z.lor (Z.shiftl (Z.land d3 0xff) 8) (Z.land d4 0xff) in
  value ← (if Z.of_nat (length data) =? 7 then
             d5 ← getitem data 5;
             d6 ← getitem data 6;
             mret (Some (Z.lor (Z.shiftl (Z.land d5 0xff) 8) (Z.land d6 0xff)))
           else mret None);
  mret (msg_type, receiver, register, value).

(** ** The built-ins the module relies on *)

(** *** [int(s, 16)]

    CPython's [PyLong_FromString] with base 16: leading white space, an
    optional sign, an optional [0x]/[0X] prefix (after which one underscore
    may follow), then hexadecimal digits separated by single underscores,
    then trailing white space; anything else is a [ValueError]. The
    characters are those of ASCII: the white space and the digits that
    Unicode adds to them, which Python accepts in a [str], are not
    modelled. *)
Definition is_space (c : ascii) : bool :=
  let n := nat_of_ascii c in
  (n =? 32)%nat || ((9 <=? n)%nat && (n <=? 13)%nat).

Definition hex_digit_value (c : ascii) : option Z :=
  let n := Z.of_nat (nat_of_ascii c) in
  if (48 <=? n) && (n <=? 57) then Some (n - 48)
  else if (97 <=? n) && (n <=? 102) then Some (n - 87)
  else if (65 <=? n) && (n <=? 70) then Some (n - 55)
  else None.

Fixpoint lstrip (s : string) : string :=
  match s with
  | String c s' => if is_space c then lstrip s' else s
  | EmptyString => EmptyString
  end.

Fixpoint all_space (s : string) : bool :=
  match s with
  | String c s' => is_space c && all_space s'
  | EmptyString => true
  end.

(** The digit scan: the value read so far, the number of digits, whether the
    previous character was an underscore; the result carries what follows
    the digits. [None] is the scan's error exit (two underscores in a row, or
    one not followed by a digit). *)
Fixpoint scan_digits (s : string) (acc : Z) (digits : nat) (prev_us : bool)
  : option (Z * nat * string) :=
  match s with
  | String c s' =>
      match hex_digit_value c with
      | Some d => scan_digits s' (acc * 16 + d) (S digits) false
      | None =>
          if Ascii.eqb c "_" then
            if prev_us then None else scan_digits s' acc digits true
          else if prev_us then None else Some (acc, digits, s)
      end
  | EmptyString => if prev_us then None else Some (acc, digits, EmptyString)
  end.

(** The sign, when there is one, and what follows it. *)
Definition split_sign (s : string) : bool * string :=
  match s with
  | String "+" s' => (false, s')
  | String "-" s' => (true, s')
  | _ => (false, s)
  end.

(** The base prefix is skipped, and one underscore after it. *)
Definition skip_prefix (s : string) : string :=
  match s with
  | String "0" (String x s') =>
      if Ascii.eqb x "x" || Ascii.eqb x "X" then
        match s' with String "_" s'' => s'' | _ => s' end
      else s
  | _ => s
  end.

Definition starts_with_underscore (s : string) : bool :=
  match s with
  | String "_" _ => true
  | _ => false
  end.

Definition int16 (s : string) : result Z :=
  let '(negative, s) := split_sign (lstrip s) in
  let s := skip_prefix s in
  if starts_with_underscore s then Raise ValueError
  else
    match scan_digits s 0 0 false with
    | Some (v, S _, rest) =>
        if all_space rest then Ok (if negative then - v else v)
        else Raise ValueError
    | _ => Raise ValueError
    end.

(** *** [s.split(sep)] for a one-character separator *)
Fixpoint split (sep : ascii) (s : string) : list string :=
  match s with
  | EmptyString => [EmptyString]
  | String c s' =>
      if Ascii.eqb c sep then EmptyString :: split sep s'
      else match split sep s' with
           | h :: t => String c h :: t
           | [] => [String c EmptyString]
           end
  end.

(** *** [int / float] and [format(x, '.Nf')]

    Floats are the kernel's binary64 numbers. An integer operand of [/] is
    converted with round-to-nearest-even ([OverflowError] past the largest
    float); the fixed-point format prints the decimal number with
    [precision] fractional digits that is nearest to the float's exact
    value, ties to even. *)
Definition float_of_int (v : Z) : result float :=
  let x := SF2Prim (binary_normalize prec emax v 0 false) in
  if is_infinity x then Raise OverflowError else Ok x.

(** [num / 2^k] rounded to the nearest integer, ties to even. *)
Definition round_half_even (num k : Z) : Z :=
  let q := Z.shiftr num k in
  let r := Z.land num (Z.ones k) in
  match Z.shiftl r 1 ?= Z.shiftl 1 k with
  | Lt => q
  | Gt => q + 1
  | Eq => if Z.even q then q else q + 1
  end.

(** [m * 2^e * 10^precision] rounded to an integer. *)
Definition scaled_digits (precision : nat) (m e : Z) : Z :=
  let num := m * 10 ^ Z.of_nat precision in
  if 0 <=? e then Z.shiftl num e else round_half_even num (- e).

Definition digit_char (d : Z) : ascii := ascii_of_nat (48 + Z.to_nat d).

(** The [k] low decimal digits of [n], most significant first. *)
Fixpoint digits_of (k : nat) (n : Z) : string :=
  match k with
  | O => EmptyString
  | S k' => digits_of k' (n / 10) +:+ String (digit_char (n mod 10)) EmptyString
  end.

(** A non-negative integer [n] of [10^-precision] units in fixed-point
    notation. *)
Definition fixed_point (precision : nat) (n : Z) : string :=
  let unit := 10 ^ Z.of_nat precision in
  match precision with
  | O => pretty n
  | _ => pretty (n / unit) +:+ "." +:+ digits_of precision (n mod unit)
  end.

(** The fractional digits' integer: [|x| * 10^precision], rounded, for a
    finite [x] taken apart into mantissa and exponent. *)
Definition fixed_digits (precision : nat) (x : float) : Z :=
  let '(r, e) := Z.frexp x in
  scaled_digits precision (Uint63.to_Z (normfr_mantissa r)) (e - prec).

Definition format_f (precision : nat) (x : float) : string :=
  if is_nan x then "nan"
  else if is_infinity x then (if get_sign x then "-inf" else "inf")
  else (if get_sign x then "-" else "")
       +:+ fixed_point precision (fixed_digits precision x).

(** [format(n, 'd')] *)
Definition format_d (n : Z) : string := pretty n.

(** ** Protocol message *)

(** A frame as the transport delivers it ([can.Message]): the arbitration id
    of its sender and its payload. *)
Record Message : Type := {
  arbitration_id : Z;
  data : list Z
}.

(** The attributes [ElsterMessage.__init__] sets, and the payload it hands
    to the base class. *)
Record ElsterMessage : Type := {
  em_sender : option Z;
  em_receiver : option Z;
  em_register : option Z;
  em_type : Z;
  em_value : option Z;
  em_fmt : option string;
  em_data : list Z
}.

(** [ElsterMessage(sender, receiver, register, msg, fmt)]. A delivered
    [can.Message] is true in a condition ([Message.__bool__] returns [True]),
    [None] is false. Without [msg] the request is encoded from [receiver] and
    [register]; when one of them is [None] the shift in [encode_elster_data]
    raises [TypeError]. *)
Definition ElsterMessage_init (sender receiver register : option Z)
    (msg : option Message) (fmt : option string) : result ElsterMessage :=
  match msg with
  | Some msg =>
      '(type, receiver, register, value) ← decode_elster_data (data msg) 7;
      mret {| em_sender := Some (arbitration_id msg);
              em_receiver := Some receiver;
              em_register := Some register;
              em_type := type;
              em_value := value;
              em_fmt := fmt;
              em_data := data msg |}
  | None =>
      data ← match receiver, register with
             | Some receiver, Some register =>
                 Ok (encode_elster_data receiver register None)
             | _, _ => Raise TypeError
             end;
      mret {| em_sender := sender;
              em_receiver := receiver;
              em_register := register;
              em_type := TYPE_REQUEST;
              em_value := None;
              em_fmt := fmt;
              em_data := data |}
  end.

(** What [formatted_value] returns: the raw value ([None] or an integer) or
    a string. *)
Inductive pyval : Type :=
  | PyNone
  | PyInt (n : Z)
  | PyStr (s : string).

Definition pyval_of_value (v : option Z) : pyval :=
  match v with
  | None => PyNone
  | Some n => PyInt n
  end.

(** [ElsterMessage.formatted_value]. The dictionary display evaluates its
    three formatted strings, in order, before the subscript by [self.fmt]
    (a missing key raises [KeyError]); arithmetic on a [None] value raises
    [TypeError]. *)
Definition formatted_value (self : ElsterMessage) : result pyval :=
  if negb (truthy (em_fmt self)) then Ok (pyval_of_value (em_value self))
  else
    match em_value self with
    | None => Raise TypeError
    | Some value =>
        x ← float_of_int value;
        let formats : gmap string string :=
          {[ "dec_val"%string := format_f 1 (x / 10)%float;
             "mil_val"%string := format_f 3 (x / 1000)%float;
             "little_endian"%string :=
               format_d (Z.lor (Z.shiftl (Z.land value 0xff) 8)
                               (Z.shiftr value 8)) ]} in
        match formats !! default EmptyString (em_fmt self) with
        | Some s => Ok (PyStr s)
        | None => Raise KeyError
        end
    end.

(** ** Register directory and session *)

(** One element of [config["data"]]: the keys [name] and [index], and the
    optional key [format]. *)
Record Entry : Type := {
  name : string;
  index : string;
  format : option string
}.

(** The configuration [ElsterBus.__init__] reads: [config["can"]] and
    [config["data"]]. *)
Record Config : Type := {
  can_interface : string;
  can_sender : string;
  config_data : list Entry
}.

Record ElsterBus : Type := {
  channel : string;
  sender : Z;
  config : gmap string Entry;
  simulate : bool
}.

(** The dictionary comprehension [{x["name"]: x for x in data}]: the entries
    are stored one after the other under their names. *)
Definition directory (entries : list Entry) : gmap string Entry :=
  foldl (fun d x => <[name x := x]> d) ∅ entries.

(** [ElsterBus(config, simulate)] *)
Definition ElsterBus_init (cfg : Config) (simulate : bool) : result ElsterBus :=
  sender ← int16 (can_sender cfg);
  mret {| channel := can_interface cfg;
          sender := sender;
          config := directory (config_data cfg);
          simulate := simulate |}.

(** [ElsterBus.config_lookup(name)]; an entry is a non-empty dictionary, so
    [not c] holds only when [get] returned [None]. Unpacking the split index
    into two names raises [ValueError] unless it has exactly two parts. *)
Definition config_lookup (self : ElsterBus) (name : string)
  : result (Z * Z * option string) :=
  match config self !! name with
  | None => Raise ElsterInvalidName
  | Some c =>
      match split "." (index c) with
      | [rec; reg] =>
          rec ← int16 rec;
          reg ← int16 reg;
          mret (rec, reg, format c)
      | _ => Raise ValueError
      end
  end.

(** *** The transport and the clock

    The bus is the external collaborator of [read]. Its state is the clock,
    the frames still to arrive (each with the time that passes between the
    previous arrival and its own), the frames sent, the timeouts [recv] was
    called with, and the exceptions printed. Time passes only while [recv]
    blocks. *)
Record World : Type := {
  clock : Z;
  pending : list (Z * Message);
  sent : list ElsterMessage;
  recv_timeouts : list Z;
  printed : list exn
}.

(** [time.time()] *)
Definition time (w : World) : Z := clock w.

(** [bus.send(msg)] *)
Definition send (msg : ElsterMessage) (w : World) : World :=
  {| clock := clock w; pending := pending w; sent := sent w ++ [msg];
     recv_timeouts := recv_timeouts w; printed := printed w |}.

(** [bus.recv(timeout)]: the next frame when it arrives within [timeout],
    else [None] once [timeout] has passed. *)
Definition recv (timeout : Z) (w : World) : option Message * World :=
  match pending w with
  | (gap, m) :: rest =>
      if gap <=? timeout then
        (Some m,
         {| clock := clock w + gap; pending := rest; sent := sent w;
            recv_timeouts := recv_timeouts w ++ [timeout];
            printed := printed w |})
      else
        (None,
         {| clock := clock w + Z.max 0 timeout;
            pending := (gap - Z.max 0 timeout, m) :: rest; sent := sent w;
            recv_timeouts := recv_timeouts w ++ [timeout];
            printed := printed w |})
  | [] =>
      (None,
       {| clock := clock w + Z.max 0 timeout; pending := []; sent := sent w;
          recv_timeouts := recv_timeouts w ++ [timeout];
          printed := printed w |})
  end.

(** [print(e)] *)
Definition print (e : exn) (w : World) : World :=
  {| clock := clock w; pending := pending w; sent := sent w;
     recv_timeouts := recv_timeouts w; printed := printed w ++ [e] |}.

(** *** [ElsterBus.read] *)

(** How one pass through the body of the receive loop ends. *)
Inductive step : Type :=
  | Accepted (msg : ElsterMessage)
  | Discarded
  | Reported (e : exn)
  | Propagated (e : exn).

(** The [try] statement of the loop for what [recv] returned: build the
    message, return it when it is the response waited for, print an
    [ElsterError]; any other exception leaves [read]. *)
Definition read_iteration (self : ElsterBus) (receiver : option Z)
    (fmt : option string) (m : option Message) : step :=
  match ElsterMessage_init None None None m fmt with
  | Ok msg =>
      if (em_type msg =? TYPE_RESPONSE)
         && bool_decide (em_sender msg = receiver)
         && bool_decide (em_receiver msg = Some (sender self))
      then Accepted msg
      else Discarded
  | Raise e => if is_ElsterError e then Reported e else Propagated e
  end.

(** How a call of [read] ends; [OutOfFuel] is the embedding's own case, for
    a loop cut short by its fuel (shown below never to happen). *)
Inductive outcome : Type :=
  | Returned (msg : ElsterMessage)
  | Raised (e : exn)
  | OutOfFuel.

(** The [while] loop and the [raise] after it. *)
Fixpoint read_loop (fuel : nat) (self : ElsterBus) (receiver : option Z)
    (fmt : option string) (start_time timeout : Z) (w : World)
  : outcome * World :=
  match fuel with
  | O => (OutOfFuel, w)
  | S fuel =>
      if time w <? start_time + timeout then
        let '(m, w) := recv timeout w in
        match read_iteration self receiver fmt m with
        | Accepted msg => (Returned msg, w)
        | Discarded =>
            read_loop fuel self receiver fmt start_time timeout w
        | Reported e =>
            read_loop fuel self receiver fmt start_time timeout (print e w)
        | Propagated e => (Raised e, w)
        end
      else (Raised ElsterReadTimedOut, w)
  end.

Definition set_value (msg : ElsterMessage) (v : Z) : ElsterMessage :=
  {| em_sender := em_sender msg; em_receiver := em_receiver msg;
     em_register := em_register msg; em_type := em_type msg;
     em_value := Some v; em_fmt := em_fmt msg; em_data := em_data msg |}.

(** [ElsterBus.read(name, receiver, register, fmt, timeout)] on an open bus.
    Every pass of the loop that does not leave [read] has taken a frame off
    the transport, so one more pass than there are frames to come is all the
    loop can make. *)
Definition read (self : ElsterBus) (name : option string)
    (receiver register : option Z) (fmt : option string) (timeout : Z)
    (w : World) : outcome * World :=
  match (if truthy name then
           '(rec, reg, fmt) ← config_lookup self (default EmptyString name);
           mret (Some rec, Some reg, fmt)
         else mret (receiver, register, fmt)) with
  | Raise e => (Raised e, w)
  | Ok (receiver, register, fmt) =>
      match ElsterMessage_init (Some (sender self)) receiver register None fmt
      with
      | Raise e => (Raised e, w)
      | Ok msg =>
          if simulate self then (Returned (set_value msg 12345), w)
          else
            let w := send msg w in
            let start_time := time w in
            read_loop (S (length (pending w))) self receiver fmt
                      start_time timeout w
      end
  end.

(** ** Reference notions for the statements

    The number a string of hexadecimal digits denotes, digit by digit from
    the most significant one, and what a string of such digits is. *)
Fixpoint hex_value (s : string) : Z :=
  match s with
  | EmptyString => 0
  | String c s' =>
      default 0 (hex_digit_value c) * 16 ^ Z.of_nat (String.length s')
      + hex_value s'
  end.

Fixpoint all_hex (s : string) : bool :=
  match s with
  | EmptyString => true
  | String c s' => bool_decide (is_Some (hex_digit_value c)) && all_hex s'
  end.

Definition is_hex (s : string) : bool :=
  negb (String.eqb s EmptyString) && all_hex s.

(** The request [read] builds for a receiver and a register, and sends. *)
Definition request_of (self : ElsterBus) (rc rg : Z) (fmt : option string)
  : ElsterMessage :=
  {| em_sender := Some (sender self); em_receiver := Some rc;
     em_register := Some rg; em_type := TYPE_REQUEST; em_value := None;
     em_fmt := fmt; em_data := encode_elster_data rc rg None |}.

(** The frame [read] waits for: it decodes as a response, the transport
    names the requested device as its sender, and it is addressed to the
    session. *)
Definition acceptable (self : ElsterBus) (receiver : Z) (m : Message) : bool :=
  match decode_elster_data (data m) 7 with
  | Ok (type, rcv, _, _) =>
      (type =? TYPE_RESPONSE) && (arbitration_id m =? receiver)
      && (rcv =? sender self)
  | Raise _ => false
  end.

(** The frames of a list all reach the receive loop: each arrives while the
    loop is still before its deadline, and within the timeout given to
    [recv]. *)
Fixpoint arrives (deadline timeout now : Z) (frames : list (Z * Message))
  : Prop :=
  match frames with
  | [] => True
  | (gap, _) :: rest =>
      now < deadline /\ gap <= timeout
      /\ arrives deadline timeout (now + gap) rest
  end.

(** ** Checking all 16-bit values

    [all_below bits base f] evaluates [f] on the [2^bits] integers from
    [base * 2^bits] on. *)
Fixpoint all_below (bits : nat) (base : Z) (f : Z -> bool) : bool :=
  match bits with
  | O => f base
  | S k => all_below k (2 * base) f && all_below k (2 * base + 1) f
  end.

(** The two quotients [formatted_value] prints are finite and positive, and
    their digits are those of [v] itself. *)
Definition quotients_exact (v : Z) : bool :=
  match float_of_int v with
  | Ok x =>
      let t := (x / 10)%float in
      let m := (x / 1000)%float in
      negb (is_nan t) && negb (is_infinity t) && negb (get_sign t)
      && (fixed_digits 1 t =? v)
      && negb (is_nan m) && negb (is_infinity m) && negb (get_sign m)
      && (fixed_digits 3 m =? v)
  | Raise _ => false
  end.

(** ** The test fixture

    The configuration, the session and the response frame of
    [tests/test_read.py], and a transport that has done nothing yet. *)
Definition test_config : Config :=
  {| can_interface := "dummy";
     can_sender := "123";
     config_data := [ {| name := "FOO"; index := "180.deaf"; format := None |} ] |}.

Definition test_bus : ElsterBus :=
  {| channel := "dummy"; sender := 0x123;
     config := directory (config_data test_config); simulate := false |}.

Definition test_response : Message :=
  {| arbitration_id := 0x180;
     data := encode_elster_data 0x123 0xdeaf (Some 0xdead) |}.

Definition fresh (now : Z) (frames : list (Z * Message)) : World :=
  {| clock := now; pending := frames; sent := []; recv_timeouts := [];
     printed := [] |}.

(** A response message as [read] returns it, with [value] and format
    [fmt]. *)
Definition response_with (value : Z) (fmt : option string) : ElsterMessage :=
  {| em_sender := Some 0x180; em_receiver := Some 0x123;
     em_register := Some 0xdeaf; em_type := TYPE_RESPONSE;
     em_value := Some value; em_fmt := fmt;
     em_data := encode_elster_data 0x123 0xdeaf (Some value) |}.

(** A configuration whose only entry carries a format the formatter does not
    know. *)
Definition odd_format_config : Config :=
  {| can_interface := "dummy";
     can_sender := "123";
     config_data :=
       [ {| name := "FOO"; index := "180.deaf"; format := Some "hex_val"%string |} ] |}.

(** A frame that is no Elster frame (its payload is empty), and the two
    transports of the timing examples: a stray frame after 9 time units and
    the response 10 units later; no frame at all. *)
Definition stray_frame : Message := {| arbitration_id := 0x5; data := [] |}.

Definition late_response : World :=
  fresh 100 [(9, stray_frame); (10, test_response)].

Definition silent : World := fresh 100 [].

(** ** Further reference notions *)

(** The number of occurrences of a character in a string. *)
Fixpoint occurrences (c : ascii) (s : string) : nat :=
  match s with
  | EmptyString => O
  | String a s' => if Ascii.eqb a c then S (occurrences c s') else occurrences c s'
  end.

(** The time a list of frames takes to arrive. *)
Definition total_gap (frames : list (Z * Message)) : Z :=
  foldr (fun x acc => x.1 + acc) 0 frames.

(** The response frame of the device [rc] to the session, about [register]. *)
Definition response_frame (self : ElsterBus) (rc register value : Z) : Message :=
  {| arbitration_id := rc;
     data := encode_elster_data (sender self) register (Some value) |}.

(** The decoding error of a frame, when [ElsterMessage] cannot be built from
    it, and the errors of a list of frames, in order. *)
Definition frame_error (m : Message) : option exn :=
  match decode_elster_data (data m) 7 with
  | Raise e => Some e
  | Ok _ => None
  end.

Definition frame_errors (frames : list (Z * Message)) : list exn :=
  omap (fun x => frame_error x.2) frames.

(** A frame of seven bytes without the marker. *)
Definition unmarked_frame : Message :=
  {| arbitration_id := 0x180; data := [0; 0; 0; 0; 0; 0; 0] |}.

(** ** Bit-level facts *)

Lemma testbit_bounded (k a l : Z) :
  0 <= a < 2 ^ k -> k <= l -> Z.testbit a l = false.
Proof.
  intros [Ha Hk] Hl.
  destruct (Z.lt_ge_cases k 0) as [Hneg|Hpos].
  - rewrite Z.pow_neg_r in Hk by assumption. lia.
  - apply (proj1 (Z.bounded_iff_bits_nonneg k a Hpos Ha)); assumption.
Qed.

Lemma land_byte (a m : Z) : 0 <= m < 256 -> 0 <= Z.land a m < 256.
Proof.
  intros Hm.
  assert (H0 : 0 <= Z.land a m) by (apply Z.land_nonneg; lia).
  split; [assumption|].
  apply (Z.bounded_iff_bits_nonneg 8); [lia|assumption|].
  intros l Hl. rewrite Z.land_spec, (testbit_bounded 8 m l) by lia.
  apply andb_false_r.
Qed.

Lemma lor_byte (a b : Z) :
  0 <= a < 256 -> 0 <= b < 256 -> 0 <= Z.lor a b < 256.
Proof.
  intros Ha Hb.
  assert (H0 : 0 <= Z.lor a b) by (apply Z.lor_nonneg; lia).
  split; [assumption|].
  apply (Z.bounded_iff_bits_nonneg 8); [lia|assumption|].
  intros l Hl.
  rewrite Z.lor_spec, (testbit_bounded 8 a l), (testbit_bounded 8 b l) by lia.
  reflexivity.
Qed.

(** The masks of the codec as runs of ones. *)
Lemma mask_0f : 0x0f = Z.ones 4. Proof. reflexivity. Qed.
Lemma mask_7f : 0x7f = Z.ones 7. Proof. reflexivity. Qed.
Lemma mask_ff : 0xff = Z.ones 8. Proof. reflexivity. Qed.
Lemma mask_f0 : 0xf0 = Z.shiftl (Z.ones 4) 4. Proof. reflexivity. Qed.

Lemma testbit_f0 (i : Z) : Z.testbit 0xf0 i = (4 <=? i) && (i <? 8).
Proof.
  rewrite mask_f0.
  destruct (Z.lt_ge_cases i 0) as [Hi|Hi].
  - rewrite Z.testbit_neg_r by assumption. symmetry. apply andb_false_iff. left. lia.
  - rewrite Z.shiftl_spec, Z.testbit_ones by lia.
    destruct (4 <=? i) eqn:E1, (i <? 8) eqn:E2, (0 <=? i - 4) eqn:E3, (i - 4 <? 4) eqn:E4;
      try reflexivity; lia.
Qed.

Lemma testbit_0f (i : Z) : Z.testbit 0x0f i = (0 <=? i) && (i <? 4).
Proof. rewrite mask_0f. apply Z.testbit_ones. lia. Qed.

Lemma testbit_7f (i : Z) : Z.testbit 0x7f i = (0 <=? i) && (i <? 7).
Proof. rewrite mask_7f. apply Z.testbit_ones. lia. Qed.

Lemma testbit_ff (i : Z) : Z.testbit 0xff i = (0 <=? i) && (i <? 8).
Proof. rewrite mask_ff. apply Z.testbit_ones. lia. Qed.

Lemma testbit_shiftr (a k i : Z) :
  Z.testbit (Z.shiftr a k) i = (0 <=? i) && Z.testbit a (i + k).
Proof.
  destruct (Z.leb_spec 0 i).
  - rewrite Z.shiftr_spec by assumption. reflexivity.
  - rewrite Z.testbit_neg_r by assumption. reflexivity.
Qed.

Lemma testbit_shiftl (a k i : Z) :
  Z.testbit (Z.shiftl a k) i = (0 <=? i) && Z.testbit a (i - k).
Proof.
  destruct (Z.leb_spec 0 i).
  - rewrite Z.shiftl_spec by assumption. reflexivity.
  - rewrite Z.testbit_neg_r by assumption. reflexivity.
Qed.

Ltac bits_cases :=
  repeat match goal with
    | |- context [?a <=? ?b] => destruct (Z.leb_spec a b)
    | |- context [?a <? ?b] => destruct (Z.ltb_spec a b)
    end;
  cbn [andb orb];
  rewrite ?andb_false_r, ?andb_true_r, ?orb_false_r, ?orb_true_r;
  try reflexivity; try lia.

Ltac bitwise i Hi :=
  apply Z.bits_inj'; intros i Hi;
  repeat first
    [ rewrite Z.lor_spec | rewrite Z.land_spec
    | rewrite testbit_shiftl | rewrite testbit_shiftr
    | rewrite testbit_f0 | rewrite testbit_0f
    | rewrite testbit_7f | rewrite testbit_ff ].

(** The receiver address survives the split over bytes 0 and 1 when it fits
    11 bits. *)
Lemma receiver_roundtrip (receiver t : Z) :
  0 <= receiver < 2048 -> 0 <= t < 16 ->
  Z.lor (Z.shiftl (Z.land (Z.lor (Z.land (Z.shiftr receiver 3) 0xf0) (Z.land t 0x0f)) 0xf0) 3)
        (Z.land (Z.land receiver 0x7f) 0x7f) = receiver.
Proof.
  intros Hr Ht. bitwise i Hi.
  replace (i - 3 + 3) with i by lia.
  destruct (Z.lt_ge_cases i 11).
  - bits_cases; destruct (Z.testbit receiver i); reflexivity.
  - rewrite (testbit_bounded 11 receiver i) by lia. bits_cases.
Qed.

Lemma type_roundtrip (receiver t : Z) :
  0 <= t < 16 ->
  Z.land (Z.lor (Z.land (Z.shiftr receiver 3) 0xf0) (Z.land t 0x0f)) 0x0f = t.
Proof.
  intros Ht. bitwise i Hi.
  destruct (Z.lt_ge_cases i 4).
  - bits_cases.
  - rewrite (testbit_bounded 4 t i) by lia. bits_cases.
Qed.

Lemma word_roundtrip (v : Z) :
  0 <= v < 65536 ->
  Z.lor (Z.shiftl (Z.land (Z.land (Z.shiftr v 8) 0xff) 0xff) 8)
        (Z.land (Z.land v 0xff) 0xff) = v.
Proof.
  intros Hv. bitwise i Hi.
  replace (i - 8 + 8) with i by lia.
  destruct (Z.lt_ge_cases i 16).
  - bits_cases; destruct (Z.testbit v i); reflexivity.
  - rewrite (testbit_bounded 16 v i) by lia. bits_cases.
Qed.

(** ** Frame codec *)

Lemma encode_request_bytes (receiver register : Z) :
  encode_elster_data receiver register None =
  [ Z.lor (Z.land (Z.shiftr receiver 3) 0xf0) (Z.land TYPE_REQUEST 0x0f);
    Z.land receiver 0x7f; 0xfa;
    Z.land (Z.shiftr register 8) 0xff; Z.land register 0xff ].
Proof. reflexivity. Qed.

Lemma encode_response_bytes (receiver register value : Z) :
  encode_elster_data receiver register (Some value) =
  [ Z.lor (Z.land (Z.shiftr receiver 3) 0xf0) (Z.land TYPE_RESPONSE 0x0f);
    Z.land receiver 0x7f; 0xfa;
    Z.land (Z.shiftr register 8) 0xff; Z.land register 0xff;
    Z.land (Z.shiftr value 8) 0xff; Z.land value 0xff ].
Proof. reflexivity. Qed.

(** The vectors of [tests/test_encode_decode.py]. *)
Example test_encode_request_ok :
  encode_elster_data 0x0123 0xdeaf None = [0x21; 0x23; 0xfa; 0xde; 0xaf].
Proof. reflexivity. Qed.

Example test_encode_response_ok :
  encode_elster_data 0x0123 0xdeaf (Some 0xbabe)
  = [0x22; 0x23; 0xfa; 0xde; 0xaf; 0xba; 0xbe].
Proof. reflexivity. Qed.

Example test_decode_request_ok :
  decode_elster_data [0x21; 0x23; 0xfa; 0xde; 0xaf] 5
  = Ok (0x1, 0x0123, 0xdeaf, None).
Proof. reflexivity. Qed.

Example test_decode_response_ok :
  decode_elster_data [0x21; 0x23; 0xfa; 0xde; 0xaf; 0xba; 0xbe] 7
  = Ok (0x1, 0x0123, 0xdeaf, Some 0xbabe).
Proof. reflexivity. Qed.

Example test_decode_size_error :
  decode_elster_data [] 7 = Raise ElsterDataSizeError.
Proof. reflexivity. Qed.

Example test_decode_byte2_error :
  decode_elster_data [0; 0; 0; 0; 0; 0; 0] 7 = Raise ElsterDataByte2Error.
Proof. reflexivity. Qed.

(** Decoding a list of five or seven elements with the marker in place. *)
Lemma decode_five (d0 d1 d3 d4 : Z) :
  decode_elster_data [d0; d1; 0xfa; d3; d4] 5 =
  Ok (Z.land d0 0x0f,
      Z.lor (Z.shiftl (Z.land d0 0xf0) 3) (Z.land d1 0x7f),
      Z.lor (Z.shiftl (Z.land d3 0xff) 8) (Z.land d4 0xff),
      None).
Proof. reflexivity. Qed.

Lemma decode_seven (d0 d1 d3 d4 d5 d6 : Z) :
  decode_elster_data [d0; d1; 0xfa; d3; d4; d5; d6] 7 =
  Ok (Z.land d0 0x0f,
      Z.lor (Z.shiftl (Z.land d0 0xf0) 3) (Z.land d1 0x7f),
      Z.lor (Z.shiftl (Z.land d3 0xff) 8) (Z.land d4 0xff),
      Some (Z.lor (Z.shiftl (Z.land d5 0xff) 8) (Z.land d6 0xff))).
Proof. reflexivity. Qed.

(** C1. Decoding inverts encoding: for a receiver address of 11 bits and a
    register of 16 bits the encoded request decodes, with size 5, to the
    request type, the two addresses and no value; and for a value of 16 bits
    the encoded response decodes, with size 7, to the response type, the
    same addresses and that value. *)
Theorem decode_encode_roundtrip (receiver register : Z) :
  0 <= receiver <= 2047 -> 0 <= register <= 65535 ->
  decode_elster_data (encode_elster_data receiver register None) 5
  = Ok (TYPE_REQUEST, receiver, register, None)
  /\ forall value : Z, 0 <= value <= 65535 ->
     decode_elster_data (encode_elster_data receiver register (Some value)) 7
     = Ok (TYPE_RESPONSE, receiver, register, Some value).
Proof.
  intros Hrec Hreg. split.
  - rewrite encode_request_bytes, decode_five.
    rewrite type_roundtrip, receiver_roundtrip, word_roundtrip
      by (unfold TYPE_REQUEST; lia).
    reflexivity.
  - intros value Hval.
    rewrite encode_response_bytes, decode_seven.
    rewrite type_roundtrip, receiver_roundtrip, !word_roundtrip
      by (unfold TYPE_RESPONSE; lia).
    reflexivity.
Qed.

Lemma decode_encode_roundtrip_witness :
  decode_elster_data (encode_elster_data 0x180 0xdeaf None) 5
  = Ok (TYPE_REQUEST, 0x180, 0xdeaf, None)
  /\ forall value : Z, 0 <= value <= 65535 ->
     decode_elster_data (encode_elster_data 0x180 0xdeaf (Some value)) 7
     = Ok (TYPE_RESPONSE, 0x180, 0xdeaf, Some value).
Proof. apply (decode_encode_roundtrip 0x180 0xdeaf); lia. Defined.

Ltac forall_step :=
  match goal with
  | |- Forall _ (_ :: _) => constructor
  | |- Forall _ [] => constructor
  end.

(** C10. Whatever the integers, negative and oversized ones included, the
    encoded list has five elements without a value and seven with one, each
    element is a byte value, and the element at index 2 is the marker
    0xFA. *)
Theorem encode_frame_shape (receiver register : Z) (value : option Z) :
  length (encode_elster_data receiver register value)
  = match value with None => 5%nat | Some _ => 7%nat end
  /\ Forall (fun b => 0 <= b <= 255) (encode_elster_data receiver register value)
  /\ encode_elster_data receiver register value !! 2%nat = Some 0xfa.
Proof.
  assert (Hland : forall a m, 0 <= m < 256 -> 0 <= Z.land a m <= 255)
    by (intros a m Hm; pose proof (land_byte a m Hm); lia).
  assert (Hhead : forall t, 0 <= t < 256 -> 0 <=
            Z.lor (Z.land (Z.shiftr receiver 3) 0xf0) (Z.land t 0x0f) <= 255).
  { intros t Ht.
    assert (H1 : 0 <= Z.land (Z.shiftr receiver 3) 0xf0 < 256)
      by (apply land_byte; lia).
    assert (H2 : 0 <= Z.land t 0x0f < 256) by (apply land_byte; lia).
    pose proof (lor_byte _ _ H1 H2). lia. }
  destruct value as [value|].
  - rewrite encode_response_bytes.
    split; [reflexivity|]. split; [|reflexivity].
    repeat forall_step; try (apply Hland; lia); try lia.
    apply Hhead. unfold TYPE_RESPONSE. lia.
  - rewrite encode_request_bytes.
    split; [reflexivity|]. split; [|reflexivity].
    repeat forall_step; try (apply Hland; lia); try lia.
    apply Hhead. unfold TYPE_REQUEST. lia.
Qed.

(** The size test comes first. *)
Lemma decode_size_error (data : list Z) (size : Z) :
  Z.of_nat (length data) <> size ->
  decode_elster_data data size = Raise ElsterDataSizeError.
Proof.
  intros Hne. unfold decode_elster_data.
  destruct (Z.eqb_spec (Z.of_nat (length data)) size); [contradiction|reflexivity].
Qed.

(** With the expected number of elements, five at least, the marker test
    decides; past it every subscript is in range. *)
Lemma decode_sized (data : list Z) (size : Z) :
  5 <= size -> Z.of_nat (length data) = size ->
  (data !! 2%nat <> Some 0xfa /\
   decode_elster_data data size = Raise ElsterDataByte2Error)
  \/ (data !! 2%nat = Some 0xfa /\
      exists receiver register value,
        decode_elster_data data size
        = Ok (Z.land (data !!! 0%nat) 0x0f, receiver, register, value)).
Proof.
  intros Hsize Hlen. unfold decode_elster_data.
  destruct (Z.eqb_spec (Z.of_nat (length data)) size); [|contradiction].
  destruct data as [|d0 [|d1 [|d2 [|d3 [|d4 rest]]]]]; cbn [length] in *; try lia.
  cbn [negb getitem lookup list_lookup mbind result_bind].
  destruct (Z.eqb_spec d2 0xfa) as [->|Hd2]; cbn [negb].
  - right. split; [reflexivity|].
    destruct (Z.eqb_spec (Z.of_nat (S (S (S (S (S (length rest))))))) 7) as [H7|H7].
    + destruct rest as [|d5 [|d6 [|d7 rest]]]; cbn [length] in H7; try lia.
      do 3 eexists. reflexivity.
    + do 3 eexists. reflexivity.
  - left. split; [|reflexivity]. intros [= ->]. contradiction.
Qed.

(** C6. For an expected size of at least five (the sizes in use are 5 and
    7) decoding fails with [ElsterDataSizeError] exactly when the number of
    elements differs from the expected size, with [ElsterDataByte2Error]
    exactly when the size matches and the element at index 2 is not 0xFA,
    and succeeds otherwise, with the low four bits of element 0 as the
    message type whatever they are. *)
Theorem decode_outcomes (data : list Z) (size : Z) :
  5 <= size ->
  (decode_elster_data data size = Raise ElsterDataSizeError
   <-> Z.of_nat (length data) <> size)
  /\ (decode_elster_data data size = Raise ElsterDataByte2Error
      <-> Z.of_nat (length data) = size /\ data !! 2%nat <> Some 0xfa)
  /\ (Z.of_nat (length data) = size -> data !! 2%nat = Some 0xfa ->
      exists receiver register value,
        decode_elster_data data size
        = Ok (Z.land (data !!! 0%nat) 0x0f, receiver, register, value)).
Proof.
  intros Hsize.
  destruct (Z.eq_dec (Z.of_nat (length data)) size) as [Hlen|Hlen].
  - destruct (decode_sized data size Hsize Hlen)
      as [[Hd2 Hdec]|[Hd2 (receiver & register & value & Hdec)]];
      rewrite Hdec.
    + split; [split; [discriminate|contradiction]|].
      split; [split; [auto|reflexivity]|]. intros _ Heq. contradiction.
    + split; [split; [discriminate|contradiction]|].
      split; [split; [discriminate|intros [_ Hne]; contradiction]|].
      intros _ _. eauto.
  - rewrite (decode_size_error data size Hlen).
    split; [split; auto|].
    split; [split; [discriminate|intros [Heq _]; contradiction]|].
    intros Heq. contradiction.
Qed.

Lemma decode_outcomes_witness :
  (decode_elster_data [0x2f; 0x23; 0xfa; 0; 0; 0; 0] 7
   = Raise ElsterDataSizeError
   <-> Z.of_nat (length [0x2f; 0x23; 0xfa; 0; 0; 0; 0]) <> 7)
  /\ (decode_elster_data [0x2f; 0x23; 0xfa; 0; 0; 0; 0] 7
      = Raise ElsterDataByte2Error
      <-> Z.of_nat (length [0x2f; 0x23; 0xfa; 0; 0; 0; 0]) = 7
          /\ [0x2f; 0x23; 0xfa; 0; 0; 0; 0] !! 2%nat <> Some 0xfa)
  /\ (Z.of_nat (length [0x2f; 0x23; 0xfa; 0; 0; 0; 0]) = 7 ->
      [0x2f; 0x23; 0xfa; 0; 0; 0; 0] !! 2%nat = Some 0xfa ->
      exists receiver register value,
        decode_elster_data [0x2f; 0x23; 0xfa; 0; 0; 0; 0] 7
        = Ok (Z.land ([0x2f; 0x23; 0xfa; 0; 0; 0; 0] !!! 0%nat) 0x0f,
              receiver, register, value)).
Proof. apply (decode_outcomes [0x2f; 0x23; 0xfa; 0; 0; 0; 0] 7). lia. Defined.

(** C6, as first stated, fails for an expected size below five: a list of
    three elements with the marker at index 2 has the expected size 3 and
    passes both tests, and the subscript 3 that follows raises
    [IndexError], so decoding neither succeeds nor fails with one of the two
    frame errors. *)
Lemma decode_short_frame_counterexample :
  Z.of_nat (length [0x21; 0x23; 0xfa]) = 3
  /\ [0x21; 0x23; 0xfa] !! 2%nat = Some 0xfa
  /\ decode_elster_data [0x21; 0x23; 0xfa] 3 = Raise IndexError.
Proof. repeat split. Qed.

(** ** Value formatter *)

Lemma all_below_spec (bits : nat) (f : Z -> bool) :
  forall base : Z,
    all_below bits base f = true ->
    forall v : Z,
      base * 2 ^ Z.of_nat bits <= v < (base + 1) * 2 ^ Z.of_nat bits ->
      f v = true.
Proof.
  induction bits as [|k IH]; intros base Hall v Hv.
  - cbn in Hv. replace v with base by lia. exact Hall.
  - cbn [all_below] in Hall. apply andb_true_iff in Hall as [Hlo Hhi].
    rewrite Nat2Z.inj_succ, Z.pow_succ_r in Hv by lia.
    assert (Hpow : 0 < 2 ^ Z.of_nat k) by (apply Z.pow_pos_nonneg; lia).
    destruct (Z.lt_ge_cases v ((2 * base + 1) * 2 ^ Z.of_nat k)).
    + apply (IH (2 * base) Hlo). nia.
    + apply (IH (2 * base + 1) Hhi). nia.
Qed.

Lemma quotients_exact_16bit : all_below 16 0 quotients_exact = true.
Proof. vm_compute. reflexivity. Qed.

(** For a 16-bit value the conversion to a float succeeds, and the two
    formatted quotients are the fixed-point notations of the value itself. *)
Lemma format_quotients (v : Z) :
  0 <= v <= 65535 ->
  exists x : float,
    float_of_int v = Ok x
    /\ format_f 1 (x / 10)%float = fixed_point 1 v
    /\ format_f 3 (x / 1000)%float = fixed_point 3 v.
Proof.
  intros Hv.
  pose proof (all_below_spec 16 quotients_exact 0 quotients_exact_16bit v) as H.
  assert (Hq : quotients_exact v = true) by (apply H; cbn; lia). clear H.
  unfold quotients_exact in Hq.
  destruct (float_of_int v) as [x|e]; [|discriminate].
  exists x. split; [reflexivity|].
  repeat (apply andb_true_iff in Hq as [Hq ?]).
  repeat match goal with
         | H : negb _ = true |- _ => apply negb_true_iff in H
         | H : (_ =? _) = true |- _ => apply Z.eqb_eq in H
         end.
  unfold format_f.
  repeat match goal with H : _ = false |- _ => rewrite H; clear H end.
  repeat match goal with H : fixed_digits _ _ = v |- _ => rewrite H; clear H end.
  split; reflexivity.
Qed.

Lemma fixed_point_tenths (v : Z) :
  fixed_point 1 v
  = pretty (v / 10) +:+ "." +:+ String (digit_char (v mod 10)) EmptyString.
Proof.
  unfold fixed_point. cbn [digits_of Z.of_nat Pos.of_succ_nat].
  change (10 ^ 1) with 10. rewrite Z.mod_mod by lia. reflexivity.
Qed.

Lemma fixed_point_thousandths (v : Z) :
  fixed_point 3 v
  = pretty (v / 1000) +:+ "."
    +:+ String (digit_char (v / 100 mod 10))
          (String (digit_char (v / 10 mod 10))
             (String (digit_char (v mod 10)) EmptyString)).
Proof.
  unfold fixed_point. cbn [digits_of Z.of_nat Pos.of_succ_nat Pos.succ].
  change (10 ^ Z.of_nat 3) with 1000.
  replace (v mod 1000 / 10 / 10 mod 10) with (v / 100 mod 10)
    by (Z.div_mod_to_equations; lia).
  replace (v mod 1000 / 10 mod 10) with (v / 10 mod 10)
    by (Z.div_mod_to_equations; lia).
  replace (v mod 1000 mod 10) with (v mod 10)
    by (Z.div_mod_to_equations; lia).
  reflexivity.
Qed.

(** On 16 bits the expression of the [little_endian] format exchanges the
    two bytes. *)
Lemma byte_swap (v : Z) :
  0 <= v <= 65535 ->
  Z.lor (Z.shiftl (Z.land v 0xff) 8) (Z.shiftr v 8)
  = (v mod 256) * 256 + v / 256.
Proof.
  intros Hv.
  rewrite mask_ff, Z.land_ones, Z.shiftl_mul_pow2, Z.shiftr_div_pow2 by lia.
  change (2 ^ 8) with 256.
  symmetry. apply Z.add_nocarry_lor.
  apply Z.bits_inj'. intros i Hi.
  rewrite Z.land_spec, Z.bits_0.
  destruct (Z.lt_ge_cases i 8).
  - change 256 with (2 ^ 8). rewrite Z.mul_pow2_bits_low by lia. reflexivity.
  - rewrite (testbit_bounded 8 (v / 256) i); [apply andb_false_r| |lia].
    split; [apply Z.div_pos; lia|].
    apply Z.div_lt_upper_bound; lia.
Qed.

(** C8. For a message whose value is a 16-bit integer: without a format
    (absent or empty) the formatted value is the integer itself; with
    [dec_val] it is the value over ten with exactly one fractional digit;
    with [mil_val] the value over a thousand with exactly three fractional
    digits; with [little_endian] the decimal notation of the value with its
    two bytes exchanged. *)
Theorem formatted_value_formats (msg : ElsterMessage) (v : Z) :
  em_value msg = Some v -> 0 <= v <= 65535 ->
  (truthy (em_fmt msg) = false -> formatted_value msg = Ok (PyInt v))
  /\ (em_fmt msg = Some "dec_val"%string ->
      formatted_value msg
      = Ok (PyStr (pretty (v / 10) +:+ "."
                   +:+ String (digit_char (v mod 10)) EmptyString)))
  /\ (em_fmt msg = Some "mil_val"%string ->
      formatted_value msg
      = Ok (PyStr (pretty (v / 1000) +:+ "."
                   +:+ String (digit_char (v / 100 mod 10))
                         (String (digit_char (v / 10 mod 10))
                            (String (digit_char (v mod 10)) EmptyString)))))
  /\ (em_fmt msg = Some "little_endian"%string ->
      formatted_value msg
      = Ok (PyStr (pretty (Z.lor (Z.shiftl (Z.land v 0xff) 8) (Z.shiftr v 8))))
      /\ Z.lor (Z.shiftl (Z.land v 0xff) 8) (Z.shiftr v 8)
         = (v mod 256) * 256 + v / 256).
Proof.
  intros Hval Hv.
  destruct (format_quotients v Hv) as (x & Hx & Hdec & Hmil).
  unfold formatted_value. rewrite Hval.
  split; [|split; [|split]].
  - intros ->. reflexivity.
  - intros ->. cbn [truthy negb default]. rewrite Hx.
    cbn [mbind result_bind]. rewrite lookup_insert_eq.
    rewrite Hdec, fixed_point_tenths. reflexivity.
  - intros ->. cbn [truthy negb]. rewrite Hx.
    cbn [mbind result_bind default from_option id].
    rewrite lookup_insert_ne, lookup_insert_eq by done.
    rewrite Hmil, fixed_point_thousandths. reflexivity.
  - intros ->. cbn [truthy negb]. rewrite Hx.
    cbn [mbind result_bind default from_option id].
    rewrite !lookup_insert_ne, lookup_singleton_eq by done.
    split; [reflexivity|]. apply byte_swap. exact Hv.
Qed.

Lemma formatted_value_formats_witness :
  formatted_value (response_with 0x007b (Some "dec_val"%string))
  = Ok (PyStr "12.3")
  /\ formatted_value (response_with 1234 (Some "mil_val"%string))
     = Ok (PyStr "1.234")
  /\ formatted_value (response_with 0x1234 (Some "little_endian"%string))
     = Ok (PyStr "13330")
  /\ 13330 = 0x3412
  /\ formatted_value (response_with 0x1234 None) = Ok (PyInt 0x1234).
Proof.
  split; [|split; [|split; [|split]]].
  - apply (formatted_value_formats
             (response_with 0x007b (Some "dec_val"%string)) 0x007b);
      [reflexivity|lia|reflexivity].
  - apply (formatted_value_formats
             (response_with 1234 (Some "mil_val"%string)) 1234);
      [reflexivity|lia|reflexivity].
  - apply (formatted_value_formats
             (response_with 0x1234 (Some "little_endian"%string)) 0x1234);
      [reflexivity|lia|reflexivity].
  - reflexivity.
  - apply (formatted_value_formats (response_with 0x1234 None) 0x1234);
      [reflexivity|lia|reflexivity].
Defined.

(** ** Strings: [split] and [int16] *)

(** What a hexadecimal digit is not. *)
Lemma hex_digit_char (c : ascii) :
  is_Some (hex_digit_value c) ->
  is_space c = false
  /\ c <> "+"%char /\ c <> "-"%char /\ c <> "_"%char
  /\ c <> "x"%char /\ c <> "X"%char /\ c <> "."%char.
Proof.
  destruct c as [[] [] [] [] [] [] [] []]; intros [d Hd];
    vm_compute in Hd; try discriminate; repeat split; discriminate.
Qed.

Lemma split_no_sep (sep : ascii) (s : string) :
  (forall c, c ∈ list_ascii_of_string s -> c <> sep) ->
  forall rest : string,
    split sep (s +:+ String sep rest) = s :: split sep rest.
Proof.
  induction s as [|c s IH]; intros Hs rest.
  - change (EmptyString +:+ String sep rest) with (String sep rest).
    cbn [split]. rewrite Ascii.eqb_refl. reflexivity.
  - change (String c s +:+ String sep rest)
      with (String c (s +:+ String sep rest)).
    cbn [split].
    destruct (Ascii.eqb_spec c sep) as [->|_].
    + exfalso. apply (Hs sep); [left|reflexivity].
    + rewrite IH; [reflexivity|]. intros c' Hc'. apply Hs. right. exact Hc'.
Qed.

Lemma split_none (sep : ascii) (s : string) :
  (forall c, c ∈ list_ascii_of_string s -> c <> sep) ->
  split sep s = [s].
Proof.
  induction s as [|c s IH]; intros Hs; [reflexivity|].
  cbn [split].
  destruct (Ascii.eqb_spec c sep) as [->|_].
  - exfalso. apply (Hs sep); [left|reflexivity].
  - rewrite IH; [reflexivity|]. intros c' Hc'. apply Hs. right. exact Hc'.
Qed.

Lemma all_hex_chars (s : string) :
  all_hex s = true ->
  forall c, c ∈ list_ascii_of_string s -> is_Some (hex_digit_value c).
Proof.
  induction s as [|a s IH]; intros Hs c Hc; cbn in *.
  - inversion Hc.
  - apply andb_true_iff in Hs as [Ha Hs]. apply bool_decide_eq_true in Ha.
    inversion Hc; subst; auto.
Qed.

(** An index of two digit strings around a dot splits into the two. *)
Lemma split_index (rec reg : string) :
  all_hex rec = true -> all_hex reg = true ->
  split "." (rec +:+ "." +:+ reg) = [rec; reg].
Proof.
  intros Hrec Hreg.
  change (rec +:+ "." +:+ reg) with (rec +:+ String "." reg).
  assert (Hdot : forall s, all_hex s = true ->
            forall c, c ∈ list_ascii_of_string s -> c <> "."%char).
  { intros s Hs c Hc. apply (hex_digit_char c (all_hex_chars s Hs c Hc)). }
  rewrite (split_no_sep "." rec (Hdot rec Hrec)),
    (split_none "." reg (Hdot reg Hreg)).
  reflexivity.
Qed.

Lemma scan_digits_hex (s : string) :
  all_hex s = true ->
  forall (acc : Z) (digits : nat),
    scan_digits s acc digits false
    = Some (acc * 16 ^ Z.of_nat (String.length s) + hex_value s,
            (digits + String.length s)%nat, EmptyString).
Proof.
  induction s as [|c s IH]; intros Hs acc digits.
  - cbn. repeat f_equal; lia.
  - cbn [all_hex] in Hs. apply andb_true_iff in Hs as [Hc Hs].
    apply bool_decide_eq_true in Hc. destruct Hc as [d Hd].
    cbn [scan_digits hex_value String.length]. rewrite Hd, IH by assumption.
    cbn [default]. rewrite Nat2Z.inj_succ, Z.pow_succ_r by lia.
    replace (S digits + String.length s)%nat
      with (digits + S (String.length s))%nat by lia.
    do 3 f_equal. unfold id. ring.
Qed.

(** A string that starts with a hexadecimal digit has no white space, sign,
    prefix or underscore to skip. *)
Lemma hex_head (c : ascii) (s : string) :
  all_hex (String c s) = true ->
  lstrip (String c s) = String c s
  /\ split_sign (String c s) = (false, String c s)
  /\ skip_prefix (String c s) = String c s
  /\ starts_with_underscore (String c s) = false.
Proof.
  cbn [all_hex]. intros Hs. apply andb_true_iff in Hs as [Hc Hs].
  apply bool_decide_eq_true in Hc.
  destruct (hex_digit_char c Hc) as (Hsp & Hplus & Hminus & Hus & _).
  split; [cbn [lstrip]; rewrite Hsp; reflexivity|].
  split; [|split].
  - destruct c as [[] [] [] [] [] [] [] []]; try reflexivity; congruence.
  - destruct s as [|x s']; [destruct c as [[] [] [] [] [] [] [] []]; reflexivity|].
    cbn [all_hex] in Hs. apply andb_true_iff in Hs as [Hx _].
    apply bool_decide_eq_true in Hx.
    destruct (hex_digit_char x Hx) as (_ & _ & _ & _ & Hx' & HX' & _).
    unfold skip_prefix.
    destruct (Ascii.eqb_spec x "x"); [contradiction|].
    destruct (Ascii.eqb_spec x "X"); [contradiction|].
    destruct c as [[] [] [] [] [] [] [] []]; reflexivity.
  - destruct c as [[] [] [] [] [] [] [] []]; try reflexivity; congruence.
Qed.

(** [int16] reads a non-empty string of hexadecimal digits as the number it
    denotes. *)
Lemma int16_hex (s : string) : is_hex s = true -> int16 s = Ok (hex_value s).
Proof.
  unfold is_hex. intros H. apply andb_true_iff in H as [Hne Hs].
  destruct s as [|c s]; [discriminate|].
  destruct (hex_head c s Hs) as (Hstrip & Hsign & Hprefix & Hus).
  unfold int16. rewrite Hstrip, Hsign, Hprefix, Hus.
  rewrite (scan_digits_hex _ Hs 0 0%nat). reflexivity.
Qed.

(** [int16] fails with [ValueError] only. *)
Lemma int16_raises (s : string) (e : exn) :
  int16 s = Raise e -> e = ValueError.
Proof.
  unfold int16. destruct (split_sign (lstrip s)) as [negative s1].
  destruct (starts_with_underscore (skip_prefix s1)); [congruence|].
  destruct (scan_digits (skip_prefix s1) 0 0 false) as [[[v [|n]] rest]|];
    try congruence.
  destruct (all_space rest); congruence.
Qed.

(** ** Register directory *)

Lemma foldl_insert_other (entries : list Entry) (n : string) :
  n ∉ map name entries ->
  forall d : gmap string Entry,
    foldl (fun d x => <[name x := x]> d) d entries !! n = d !! n.
Proof.
  induction entries as [|x entries IH]; intros Hn d; [reflexivity|].
  cbn [foldl]. cbn [map] in Hn. apply not_elem_of_cons in Hn as [Hx Hn].
  rewrite IH by assumption. apply lookup_insert_ne. congruence.
Qed.

(** A name no entry bears is absent from the directory. *)
Lemma directory_absent (entries : list Entry) (n : string) :
  n ∉ map name entries -> directory entries !! n = None.
Proof.
  intros Hn. unfold directory. rewrite foldl_insert_other by assumption.
  apply lookup_empty.
Qed.

(** A name is mapped to the last entry that bears it. *)
Lemma directory_last (pre post : list Entry) (e : Entry) :
  name e ∉ map name post ->
  directory (pre ++ e :: post) !! name e = Some e.
Proof.
  intros Hpost. unfold directory. rewrite foldl_app. cbn [foldl].
  rewrite foldl_insert_other by assumption. apply lookup_insert_eq.
Qed.

(** C9. In a session whose directory was built from [entries]: looking up a
    name that no entry bears fails with [ElsterInvalidName]; looking up the
    name of an entry that no later entry shares (so, of several entries with
    one name, the last) whose index is two strings of hexadecimal digits
    around a dot returns the two numbers the strings denote, with the
    entry's optional format. *)
Theorem config_lookup_spec (self : ElsterBus) (entries : list Entry) :
  config self = directory entries ->
  (forall n : string,
      n ∉ map name entries -> config_lookup self n = Raise ElsterInvalidName)
  /\ (forall (pre post : list Entry) (e : Entry) (rec reg : string),
         entries = pre ++ e :: post ->
         name e ∉ map name post ->
         index e = rec +:+ "." +:+ reg ->
         is_hex rec = true -> is_hex reg = true ->
         config_lookup self (name e)
         = Ok (hex_value rec, hex_value reg, format e)).
Proof.
  intros Hcfg. split.
  - intros n Hn. unfold config_lookup.
    rewrite Hcfg, directory_absent by assumption. reflexivity.
  - intros pre post e rec reg -> Hlast Hidx Hrec Hreg.
    unfold config_lookup. rewrite Hcfg, directory_last by assumption.
    rewrite Hidx, split_index
      by (eapply proj2, andb_true_iff; eassumption).
    rewrite !int16_hex by assumption. reflexivity.
Qed.

Lemma config_lookup_spec_witness :
  config_lookup test_bus "BAR" = Raise ElsterInvalidName
  /\ config_lookup test_bus "FOO" = Ok (0x180, 0xdeaf, None).
Proof.
  destruct (config_lookup_spec test_bus (config_data test_config) eq_refl)
    as [Habsent Hpresent].
  split.
  - apply Habsent. vm_compute. intros H. inversion H as [|? ? ? H']; inversion H'.
  - apply (Hpresent [] [] {| name := "FOO"; index := "180.deaf"; format := None |}
             "180"%string "deaf"%string); try reflexivity.
    vm_compute. intros H. inversion H.
Defined.

(** ** Formats are looked at when they are applied *)

(** C7. Building the session validates no format: it succeeds whenever the
    sender address parses, whatever the format strings of the entries are.
    A format is checked when it is applied: for a message with a 16-bit
    value, [formatted_value] fails with [KeyError] exactly when the format
    is a non-empty string other than [dec_val], [mil_val] and
    [little_endian], and succeeds otherwise. *)
Theorem format_checked_on_apply (cfg : Config) (sim : bool) (s : Z) :
  int16 (can_sender cfg) = Ok s ->
  ElsterBus_init cfg sim
  = Ok {| channel := can_interface cfg; sender := s;
          config := directory (config_data cfg); simulate := sim |}
  /\ forall (msg : ElsterMessage) (v : Z),
       em_value msg = Some v -> 0 <= v <= 65535 ->
       (formatted_value msg = Raise KeyError
        <-> truthy (em_fmt msg) = true
            /\ em_fmt msg ∉ [Some "dec_val"%string; Some "mil_val"%string;
                             Some "little_endian"%string])
       /\ (formatted_value msg <> Raise KeyError ->
           exists r : pyval, formatted_value msg = Ok r).
Proof.
  intros Hs. split.
  - unfold ElsterBus_init. rewrite Hs. reflexivity.
  - intros msg v Hval Hv.
    destruct (format_quotients v Hv) as (x & Hx & _).
    unfold formatted_value. rewrite Hval.
    destruct (truthy (em_fmt msg)) eqn:Htruthy; cbn [negb].
    + rewrite Hx. cbn [mbind result_bind].
      destruct (em_fmt msg) as [f|]; [|discriminate]. cbn [default from_option id].
      destruct (decide (f = "dec_val"%string)) as [->|Hdec].
      { rewrite lookup_insert_eq. split; [|eauto].
        split; [discriminate|]. intros [_ Hnot]. exfalso. apply Hnot. left. }
      destruct (decide (f = "mil_val"%string)) as [->|Hmil].
      { rewrite lookup_insert_ne, lookup_insert_eq by done. split; [|eauto].
        split; [discriminate|]. intros [_ Hnot]. exfalso. apply Hnot.
        right. left. }
      destruct (decide (f = "little_endian"%string)) as [->|Hle].
      { rewrite !lookup_insert_ne, lookup_singleton_eq by done. split; [|eauto].
        split; [discriminate|]. intros [_ Hnot]. exfalso. apply Hnot.
        right. right. left. }
      rewrite !lookup_insert_ne, lookup_singleton_ne by congruence.
      split; [|congruence].
      split; [|reflexivity]. intros _. split; [reflexivity|].
      rewrite !not_elem_of_cons. repeat split; try congruence.
      apply not_elem_of_nil.
    + split; [|eauto]. split; [discriminate|]. intros [? _]. discriminate.
Qed.

Lemma format_checked_on_apply_witness :
  ElsterBus_init odd_format_config false
  = Ok {| channel := "dummy"; sender := 0x123;
          config := directory (config_data odd_format_config);
          simulate := false |}
  /\ formatted_value (response_with 0xdead (Some "hex_val"%string))
     = Raise KeyError.
Proof.
  destruct (format_checked_on_apply odd_format_config false 0x123 eq_refl)
    as [Hinit Happly].
  split; [exact Hinit|].
  apply (Happly (response_with 0xdead (Some "hex_val"%string)) 0xdead);
    [reflexivity|lia|].
  split; [reflexivity|].
  rewrite !not_elem_of_cons. repeat split; try discriminate.
  apply not_elem_of_nil.
Defined.

(** C7, as first stated, fails: a configuration whose entry has the format
    [hex_val] loads, the entry is found with that format, and the failure
    comes only when the format is applied to a value. *)
Lemma unknown_format_counterexample :
  (exists bus : ElsterBus,
      ElsterBus_init odd_format_config false = Ok bus
      /\ config_lookup bus "FOO" = Ok (0x180, 0xdeaf, Some "hex_val"%string))
  /\ formatted_value (response_with 0xdead (Some "hex_val"%string))
     = Raise KeyError.
Proof.
  split; [eexists; split|]; vm_compute; reflexivity.
Qed.

(** ** The receive loop *)

(** With size 7 the only failures of the decoder are its own two errors. *)
Lemma decode7_errors (data : list Z) (e : exn) :
  decode_elster_data data 7 = Raise e ->
  e = ElsterDataSizeError \/ e = ElsterDataByte2Error.
Proof.
  intros Hdec.
  destruct (Z.eq_dec (Z.of_nat (length data)) 7) as [Hlen|Hlen].
  - destruct (decode_sized data 7 ltac:(lia) Hlen)
      as [[_ H]|[_ (receiver & register & value & H)]];
      rewrite H in Hdec; [right|discriminate]; congruence.
  - rewrite (decode_size_error data 7 Hlen) in Hdec. left. congruence.
Qed.

Lemma ElsterMessage_init_frame (m : Message) (fmt : option string) :
  ElsterMessage_init None None None (Some m) fmt
  = match decode_elster_data (data m) 7 with
    | Ok (type, receiver, register, value) =>
        Ok {| em_sender := Some (arbitration_id m);
              em_receiver := Some receiver;
              em_register := Some register;
              em_type := type;
              em_value := value;
              em_fmt := fmt;
              em_data := data m |}
    | Raise e => Raise e
    end.
Proof.
  unfold ElsterMessage_init.
  destruct (decode_elster_data (data m) 7) as [[[[type receiver] register] value]|e];
    reflexivity.
Qed.

(** When [recv] timed out the loop body tries to encode a request from
    [None] addresses. *)
Lemma read_iteration_none (self : ElsterBus) (receiver : option Z)
    (fmt : option string) :
  read_iteration self receiver fmt None = Propagated TypeError.
Proof. reflexivity. Qed.

(** A frame that fails to decode is reported. *)
Lemma read_iteration_failure (self : ElsterBus) (receiver : option Z)
    (fmt : option string) (m : Message) (e : exn) :
  ElsterMessage_init None None None (Some m) fmt = Raise e ->
  (e = ElsterDataSizeError \/ e = ElsterDataByte2Error)
  /\ read_iteration self receiver fmt (Some m) = Reported e.
Proof.
  intros Hinit. unfold read_iteration. rewrite Hinit.
  rewrite ElsterMessage_init_frame in Hinit.
  destruct (decode_elster_data (data m) 7)
    as [[[[type rcv] register] value]|e'] eqn:Hdec; [discriminate|].
  injection Hinit as ->.
  destruct (decode7_errors _ _ Hdec) as [->| ->]; split; auto.
Qed.

(** What the loop body does with a delivered frame. *)
Lemma read_iteration_frame (self : ElsterBus) (rc : Z) (fmt : option string)
    (m : Message) :
  (acceptable self rc m = true
   /\ exists msg, ElsterMessage_init None None None (Some m) fmt = Ok msg
                  /\ read_iteration self (Some rc) fmt (Some m) = Accepted msg)
  \/ (acceptable self rc m = false
      /\ (read_iteration self (Some rc) fmt (Some m) = Discarded
          \/ exists e, ElsterMessage_init None None None (Some m) fmt = Raise e
                       /\ read_iteration self (Some rc) fmt (Some m)
                          = Reported e)).
Proof.
  destruct (ElsterMessage_init None None None (Some m) fmt) as [msg|e] eqn:Hinit.
  - unfold read_iteration, acceptable. rewrite Hinit.
    rewrite ElsterMessage_init_frame in Hinit.
    destruct (decode_elster_data (data m) 7)
      as [[[[type rcv] register] value]|e]; [|discriminate].
    injection Hinit as <-. cbn [em_type em_sender em_receiver].
    destruct (type =? TYPE_RESPONSE); cbn [andb]; [|right; auto].
    destruct (Z.eqb_spec (arbitration_id m) rc) as [->|Hne].
    + rewrite bool_decide_eq_true_2 by reflexivity. cbn [andb].
      destruct (Z.eqb_spec rcv (sender self)) as [->|Hne].
      * rewrite bool_decide_eq_true_2 by reflexivity. left. eauto.
      * rewrite bool_decide_eq_false_2 by congruence. right. auto.
    + rewrite bool_decide_eq_false_2 by congruence. right. auto.
  - right. destruct (read_iteration_failure self (Some rc) fmt m e Hinit) as [_ Hrep].
    split; [|eauto].
    unfold acceptable. rewrite ElsterMessage_init_frame in Hinit.
    destruct (decode_elster_data (data m) 7)
      as [[[[type rcv] register] value]|e']; [discriminate|reflexivity].
Qed.

Lemma recv_frame (timeout : Z) (w : World) (gap : Z) (m : Message)
    (rest : list (Z * Message)) :
  pending w = (gap, m) :: rest -> gap <= timeout ->
  recv timeout w
  = (Some m,
     {| clock := clock w + gap; pending := rest; sent := sent w;
        recv_timeouts := recv_timeouts w ++ [timeout];
        printed := printed w |}).
Proof.
  intros Hp Hgap. unfold recv. rewrite Hp.
  destruct (Z.leb_spec gap timeout); [reflexivity|lia].
Qed.

Lemma recv_none (timeout : Z) (w : World) :
  match pending w with
  | [] => True
  | (gap, _) :: _ => timeout < gap
  end ->
  fst (recv timeout w) = None
  /\ clock (snd (recv timeout w)) = clock w + Z.max 0 timeout
  /\ recv_timeouts (snd (recv timeout w)) = recv_timeouts w ++ [timeout].
Proof.
  unfold recv. destruct (pending w) as [|[gap m] rest]; [auto|].
  intros Hlate. destruct (Z.leb_spec gap timeout); [lia|auto].
Qed.

(** One pass of the loop, by what the transport has for it. *)
Lemma read_loop_timed_out (fuel : nat) (self : ElsterBus) (receiver : option Z)
    (fmt : option string) (start_time timeout : Z) (w : World) :
  start_time + timeout <= time w ->
  read_loop (S fuel) self receiver fmt start_time timeout w
  = (Raised ElsterReadTimedOut, w).
Proof.
  intros Hlate. cbn [read_loop].
  destruct (Z.ltb_spec (time w) (start_time + timeout)); [lia|reflexivity].
Qed.

Lemma read_loop_recv_none (fuel : nat) (self : ElsterBus) (receiver : option Z)
    (fmt : option string) (start_time timeout : Z) (w : World) :
  time w < start_time + timeout ->
  fst (recv timeout w) = None ->
  read_loop (S fuel) self receiver fmt start_time timeout w
  = (Raised TypeError, snd (recv timeout w)).
Proof.
  intros Hnow Hnone. cbn [read_loop].
  destruct (Z.ltb_spec (time w) (start_time + timeout)); [|lia].
  destruct (recv timeout w) as [m w']. cbn in Hnone. subst m. reflexivity.
Qed.

Lemma read_loop_recv_frame (fuel : nat) (self : ElsterBus) (receiver : option Z)
    (fmt : option string) (start_time timeout : Z) (w : World)
    (gap : Z) (m : Message) (rest : list (Z * Message)) :
  time w < start_time + timeout ->
  pending w = (gap, m) :: rest -> gap <= timeout ->
  let w' := {| clock := clock w + gap; pending := rest; sent := sent w;
               recv_timeouts := recv_timeouts w ++ [timeout];
               printed := printed w |} in
  read_loop (S fuel) self receiver fmt start_time timeout w
  = match read_iteration self receiver fmt (Some m) with
    | Accepted msg => (Returned msg, w')
    | Discarded => read_loop fuel self receiver fmt start_time timeout w'
    | Reported e =>
        read_loop fuel self receiver fmt start_time timeout (print e w')
    | Propagated e => (Raised e, w')
    end.
Proof.
  intros Hnow Hp Hgap w'. cbn [read_loop].
  destruct (Z.ltb_spec (time w) (start_time + timeout)); [|lia].
  rewrite (recv_frame timeout w gap m rest Hp Hgap). reflexivity.
Qed.

Lemma arrives_head (deadline timeout now : Z) (pre : list (Z * Message))
    (x : Z * Message) :
  arrives deadline timeout now (pre ++ [x]) -> now < deadline.
Proof. destruct pre as [|[gap m] pre], x; cbn; tauto. Qed.

(** The loop returns a message exactly when the first acceptable frame to
    come has reached it, and the message is built from that frame. *)
Lemma read_loop_returns (self : ElsterBus) (rc : Z) (fmt : option string)
    (start_time timeout : Z) (msg : ElsterMessage) :
  forall (fuel : nat) (w : World),
    (length (pending w) < fuel)%nat ->
    fst (read_loop fuel self (Some rc) fmt start_time timeout w) = Returned msg
    <-> exists pre gap m post,
        pending w = pre ++ (gap, m) :: post
        /\ Forall (fun x => acceptable self rc x.2 = false) pre
        /\ acceptable self rc m = true
        /\ ElsterMessage_init None None None (Some m) fmt = Ok msg
        /\ arrives (start_time + timeout) timeout (clock w) (pre ++ [(gap, m)]).
Proof.
  induction fuel as [|fuel IH]; intros w Hfuel; [lia|].
  destruct (Z.lt_ge_cases (time w) (start_time + timeout)) as [Hnow|Hnow].
  2:{ rewrite read_loop_timed_out by lia. split; [discriminate|].
      intros (pre & gap & m & post & _ & _ & _ & _ & Harr).
      apply arrives_head in Harr. unfold time in Hnow. lia. }
  destruct (pending w) as [|[gap m] rest] eqn:Hp.
  { rewrite read_loop_recv_none;
      [|assumption|apply recv_none; rewrite Hp; exact I].
    split; [discriminate|].
    intros (pre & ? & ? & ? & Habs & _). destruct pre; discriminate. }
  destruct (Z.le_gt_cases gap timeout) as [Hgap|Hgap].
  2:{ rewrite read_loop_recv_none;
        [|assumption|apply recv_none; rewrite Hp; lia].
      split; [discriminate|].
      intros (pre & g & m' & post & Hsplit & _ & _ & _ & Harr).
      destruct pre as [|[g0 m0] pre]; cbn in Hsplit, Harr;
        injection Hsplit as -> -> _; lia. }
  rewrite (read_loop_recv_frame fuel self (Some rc) fmt start_time timeout w
             gap m rest Hnow Hp Hgap).
  cbn zeta.
  set (w' := {| clock := clock w + gap; pending := rest; sent := sent w;
                recv_timeouts := recv_timeouts w ++ [timeout];
                printed := printed w |}).
  unfold time in Hnow.
  destruct (read_iteration_frame self rc fmt m)
    as [(Hacc & msg0 & Hinit & ->)|[Hacc Hstep]].
  - cbn [fst]. split.
    + intros [= ->]. exists [], gap, m, rest. cbn. auto 10.
    + intros (pre & g & m' & post & Hsplit & Hpre & _ & Hinit' & _).
      destruct pre as [|[g0 m0] pre]; cbn in Hsplit; injection Hsplit as -> -> _.
      * congruence.
      * apply Forall_cons in Hpre as [Hm _]. cbn in Hm. congruence.
  - assert (Hrest : forall w'' : World,
              pending w'' = rest -> clock w'' = clock w + gap ->
              fst (read_loop fuel self (Some rc) fmt start_time timeout w'')
              = Returned msg
              <-> exists pre g m' post,
                  (gap, m) :: rest = pre ++ (g, m') :: post
                  /\ Forall (fun x => acceptable self rc x.2 = false) pre
                  /\ acceptable self rc m' = true
                  /\ ElsterMessage_init None None None (Some m') fmt = Ok msg
                  /\ arrives (start_time + timeout) timeout (clock w)
                       (pre ++ [(g, m')])).
    { intros w'' Hp'' Hc''. rewrite IH by (rewrite Hp''; cbn in Hfuel; lia).
      rewrite Hp'', Hc''. split.
      - intros (pre & g & m' & post & -> & Hpre & Hacc' & Hinit & Harr).
        exists ((gap, m) :: pre), g, m', post.
        split; [reflexivity|]. split; [constructor; assumption|].
        cbn. auto.
      - intros (pre & g & m' & post & Hsplit & Hpre & Hacc' & Hinit & Harr).
        destruct pre as [|[g0 m0] pre]; cbn in Hsplit;
          injection Hsplit as -> -> Hrest.
        + congruence.
        + apply Forall_cons in Hpre as [_ Hpre]. cbn in Harr.
          exists pre, g, m', post. tauto. }
    destruct Hstep as [->|(e & _ & ->)]; apply Hrest; reflexivity.
Qed.

(** A delivered frame never makes the loop body let an exception through. *)
Lemma read_iteration_delivered (self : ElsterBus) (receiver : option Z)
    (fmt : option string) (m : Message) (e : exn) :
  read_iteration self receiver fmt (Some m) <> Propagated e.
Proof.
  destruct (ElsterMessage_init None None None (Some m) fmt) as [msg|e'] eqn:Hinit.
  - unfold read_iteration. rewrite Hinit.
    destruct (_ && _); discriminate.
  - destruct (read_iteration_failure self receiver fmt m e' Hinit) as [_ ->].
    discriminate.
Qed.

(** The loop ends, and when it ends with an exception it is the time-out or
    the [TypeError] of a pass without a frame. *)
Lemma read_loop_outcomes (self : ElsterBus) (receiver : option Z)
    (fmt : option string) (start_time timeout : Z) :
  forall (fuel : nat) (w : World),
    (length (pending w) < fuel)%nat ->
    match fst (read_loop fuel self receiver fmt start_time timeout w) with
    | Returned _ => True
    | Raised e => e = ElsterReadTimedOut \/ e = TypeError
    | OutOfFuel => False
    end.
Proof.
  induction fuel as [|fuel IH]; intros w Hfuel; [lia|].
  destruct (Z.lt_ge_cases (time w) (start_time + timeout)) as [Hnow|Hnow].
  2:{ rewrite read_loop_timed_out by lia. cbn. auto. }
  destruct (pending w) as [|[gap m] rest] eqn:Hp.
  { rewrite read_loop_recv_none;
      [cbn; auto|assumption|apply recv_none; rewrite Hp; exact I]. }
  destruct (Z.le_gt_cases gap timeout) as [Hgap|Hgap].
  2:{ rewrite read_loop_recv_none;
        [cbn; auto|assumption|apply recv_none; rewrite Hp; lia]. }
  rewrite (read_loop_recv_frame fuel self receiver fmt start_time timeout w
             gap m rest Hnow Hp Hgap).
  cbn zeta. cbn in Hfuel.
  pose proof (read_iteration_delivered self receiver fmt m) as Hdel.
  destruct (read_iteration self receiver fmt (Some m)) as [msg| |e|e].
  - exact I.
  - apply IH. cbn. lia.
  - apply IH. cbn. lia.
  - exfalso. apply (Hdel e). reflexivity.
Qed.

(** [read] with explicit addresses on a real bus: send the request, then
    loop. *)
Lemma read_explicit (self : ElsterBus) (rc rg : Z) (fmt : option string)
    (timeout : Z) (w : World) :
  simulate self = false ->
  read self None (Some rc) (Some rg) fmt timeout w
  = read_loop (S (length (pending w))) self (Some rc) fmt (clock w) timeout
      (send (request_of self rc rg fmt) w).
Proof. intros Hsim. unfold read. cbn. rewrite Hsim. reflexivity. Qed.

(** ** What [read] can raise *)

Lemma config_lookup_raises (self : ElsterBus) (n : string) (e : exn) :
  config_lookup self n = Raise e -> e = ElsterInvalidName \/ e = ValueError.
Proof.
  unfold config_lookup.
  destruct (config self !! n) as [c|]; [|left; congruence].
  destruct (split "." (index c)) as [|rec [|reg [|x parts]]]; try (right; congruence).
  destruct (int16 rec) as [v1|e1] eqn:H1; cbn [mbind result_bind].
  - destruct (int16 reg) as [v2|e2] eqn:H2; cbn [mbind result_bind mret result_ret];
      [discriminate|].
    intros [= <-]. right. eapply int16_raises; eassumption.
  - intros [= <-]. right. eapply int16_raises; eassumption.
Qed.

(** [read] ends, and what it raises is the error of the lookup, the
    [TypeError] of a missing address or of a pass without a frame, or the
    time-out. *)
Lemma read_outcomes (self : ElsterBus) (name : option string)
    (receiver register : option Z) (fmt : option string) (timeout : Z)
    (w : World) :
  match fst (read self name receiver register fmt timeout w) with
  | Returned _ => True
  | Raised e =>
      e = ElsterInvalidName \/ e = ValueError \/ e = TypeError
      \/ e = ElsterReadTimedOut
  | OutOfFuel => False
  end.
Proof.
  unfold read.
  set (target := if truthy name then _ else _).
  assert (Htarget : forall e, target = Raise e ->
                              e = ElsterInvalidName \/ e = ValueError).
  { subst target. intros e. destruct (truthy name); [|discriminate].
    destruct (config_lookup self (default EmptyString name))
      as [[[rec reg] f]|e'] eqn:Hl; [discriminate|].
    intros [= <-]. eapply config_lookup_raises; eassumption. }
  destruct target as [[[rc rg] f]|e].
  - destruct (ElsterMessage_init (Some (sender self)) rc rg None f)
      as [msg|e] eqn:Hinit.
    + destruct (simulate self); [exact I|].
      pose proof (read_loop_outcomes self rc f (time (send msg w)) timeout
                    (S (length (pending (send msg w)))) (send msg w)
                    ltac:(lia)) as H.
      destruct (fst (read_loop _ _ _ _ _ _ _)); tauto.
    + cbn [fst]. unfold ElsterMessage_init in Hinit.
      destruct rc, rg; cbn in Hinit; try discriminate;
        injection Hinit as <-; auto.
  - cbn [fst]. destruct (Htarget e eq_refl); auto.
Qed.

(** ** The claims about [read] *)

(** C4. A read with explicit addresses on a real bus returns a message
    exactly when an acceptable frame (a response, sent by the requested
    device, addressed to the session) reaches the loop, every frame before
    it being not acceptable, and the message is the one built from the
    first such frame; and a frame that decodes but is not acceptable is
    discarded by the loop body, which neither returns nor raises. *)
Theorem read_returns_first_match (self : ElsterBus) (rc rg : Z)
    (fmt : option string) (timeout : Z) (w : World) :
  simulate self = false ->
  (forall msg : ElsterMessage,
      fst (read self None (Some rc) (Some rg) fmt timeout w) = Returned msg
      <-> exists pre gap m post,
          pending w = pre ++ (gap, m) :: post
          /\ Forall (fun x => acceptable self rc x.2 = false) pre
          /\ acceptable self rc m = true
          /\ ElsterMessage_init None None None (Some m) fmt = Ok msg
          /\ arrives (clock w + timeout) timeout (clock w)
               (pre ++ [(gap, m)]))
  /\ (forall (m : Message) (msg : ElsterMessage),
         ElsterMessage_init None None None (Some m) fmt = Ok msg ->
         acceptable self rc m = false ->
         read_iteration self (Some rc) fmt (Some m) = Discarded).
Proof.
  intros Hsim. split.
  - intros msg. rewrite read_explicit by assumption.
    apply (read_loop_returns self rc fmt (clock w) timeout msg
             (S (length (pending w))) (send (request_of self rc rg fmt) w)).
    cbn. lia.
  - intros m msg Hinit Hacc.
    destruct (read_iteration_frame self rc fmt m)
      as [(Hacc' & _)|(_ & [Hd|(e & He & _)])]; congruence.
Qed.

Lemma read_returns_first_match_witness :
  fst (read test_bus None (Some 0x180) (Some 0xdeaf) None 30
         (fresh 0 [(1, stray_frame); (1, test_response)]))
  = Returned (response_with 0xdead None).
Proof.
  apply (read_returns_first_match test_bus 0x180 0xdeaf None 30
           (fresh 0 [(1, stray_frame); (1, test_response)]) eq_refl).
  exists [(1, stray_frame)], 1, test_response, [].
  split; [reflexivity|]. split; [repeat constructor|].
  split; [reflexivity|]. split; [reflexivity|].
  cbn. lia.
Defined.

(** C2 is not what the code does: every call of [recv] is given the whole
    timeout again. With a timeout of 10, a stray frame after 9 time units
    and the response 10 units after it, [recv] is called twice with 10 and
    the read returns the response 19 time units after it began. *)
Lemma read_restarts_timeout :
  fst (read test_bus (Some "FOO"%string) None None None 10 late_response)
  = Returned (response_with 0xdead None)
  /\ recv_timeouts
       (snd (read test_bus (Some "FOO"%string) None None None 10 late_response))
     = [10; 10]
  /\ clock
       (snd (read test_bus (Some "FOO"%string) None None None 10 late_response))
     - clock late_response = 19.
Proof. vm_compute. repeat split. Qed.

(** C3 is not what the code does when the transport times out: on a bus
    without traffic [recv] returns [None] after the timeout, the loop body
    builds a request from [None] addresses, and the [TypeError] of the
    encoder leaves [read] in place of [ElsterReadTimedOut]. *)
Lemma read_silent_bus :
  read test_bus (Some "FOO"%string) None None None 30 silent
  = (Raised TypeError,
     {| clock := 130; pending := [];
        sent := [request_of test_bus 0x180 0xdeaf None];
        recv_timeouts := [30]; printed := [] |}).
Proof. vm_compute. reflexivity. Qed.

(** * Further properties of the code *)

(** ** Codec: wrap-around, ranges, and the other round trip *)

Lemma receiver_wraps (receiver t : Z) :
  Z.lor (Z.shiftl (Z.land (Z.lor (Z.land (Z.shiftr receiver 3) 0xf0)
                                 (Z.land t 0x0f)) 0xf0) 3)
        (Z.land (Z.land receiver 0x7f) 0x7f)
  = receiver mod 2048.
Proof.
  change 2048 with (2 ^ 11). rewrite <- Z.land_ones by lia.
  bitwise i Hi. rewrite Z.testbit_ones by lia.
  replace (i - 3 + 3) with i by lia.
  bits_cases; destruct (Z.testbit receiver i); reflexivity.
Qed.

Lemma word_wraps (v : Z) :
  Z.lor (Z.shiftl (Z.land (Z.land (Z.shiftr v 8) 0xff) 0xff) 8)
        (Z.land (Z.land v 0xff) 0xff)
  = v mod 65536.
Proof.
  change 65536 with (2 ^ 16). rewrite <- Z.land_ones by lia.
  bitwise i Hi. rewrite Z.testbit_ones by lia.
  replace (i - 8 + 8) with i by lia.
  bits_cases; destruct (Z.testbit v i); reflexivity.
Qed.

Lemma decode_encode_mod (receiver register : Z) :
  decode_elster_data (encode_elster_data receiver register None) 5
  = Ok (TYPE_REQUEST, receiver mod 2048, register mod 65536, None)
  /\ forall value : Z,
     decode_elster_data (encode_elster_data receiver register (Some value)) 7
     = Ok (TYPE_RESPONSE, receiver mod 2048, register mod 65536,
           Some (value mod 65536)).
Proof.
  split.
  - rewrite encode_request_bytes, decode_five.
    rewrite type_roundtrip, receiver_wraps, word_wraps
      by (unfold TYPE_REQUEST; lia).
    reflexivity.
  - intros value.
    rewrite encode_response_bytes, decode_seven.
    rewrite type_roundtrip, receiver_wraps, !word_wraps
      by (unfold TYPE_RESPONSE; lia).
    reflexivity.
Qed.

(** Encoding keeps the low 11 bits of the receiver and the low 16 bits of
    the register and of the value, for every integer: decoding an encoded
    frame returns the arguments modulo 2^11 and 2^16. *)
Theorem decode_encode_wraps (receiver register : Z) :
  decode_elster_data (encode_elster_data receiver register None) 5
  = Ok (TYPE_REQUEST, receiver mod 2048, register mod 65536, None)
  /\ forall value : Z,
     decode_elster_data (encode_elster_data receiver register (Some value)) 7
     = Ok (TYPE_RESPONSE, receiver mod 2048, register mod 65536,
           Some (value mod 65536)).
Proof. exact (decode_encode_mod receiver register). Qed.

(** A frame of the other kind has the wrong size: a request does not decode
    with the default size 7, nor a response with size 5. *)
Theorem decode_other_kind (receiver register value : Z) :
  decode_elster_data (encode_elster_data receiver register None) 7
  = Raise ElsterDataSizeError
  /\ decode_elster_data (encode_elster_data receiver register (Some value)) 5
     = Raise ElsterDataSizeError.
Proof.
  rewrite encode_request_bytes, encode_response_bytes. split; reflexivity.
Qed.

(** What a successful decoding has read. *)
Lemma decode_ok_inv (data : list Z) (size : Z) (fields : Z * Z * Z * option Z) :
  decode_elster_data data size = Ok fields ->
  exists d0 d1 d3 d4 rest,
    data = d0 :: d1 :: 0xfa :: d3 :: d4 :: rest
    /\ Z.of_nat (length data) = size
    /\ fields.1.1.1 = Z.land d0 0x0f
    /\ fields.1.1.2 = Z.lor (Z.shiftl (Z.land d0 0xf0) 3) (Z.land d1 0x7f)
    /\ fields.1.2 = Z.lor (Z.shiftl (Z.land d3 0xff) 8) (Z.land d4 0xff)
    /\ (fields.2 = None /\ length data <> 7%nat
        \/ exists d5 d6,
           rest = [d5; d6]
           /\ fields.2
              = Some (Z.lor (Z.shiftl (Z.land d5 0xff) 8) (Z.land d6 0xff))).
Proof.
  unfold decode_elster_data.
  destruct (Z.eqb_spec (Z.of_nat (length data)) size) as [Hlen|]; [|discriminate].
  cbn [negb].
  destruct data as [|d0 [|d1 [|d2 data]]]; try discriminate.
  cbn [getitem lookup list_lookup mbind result_bind].
  destruct (Z.eqb_spec d2 0xfa) as [->|]; [|discriminate]. cbn [negb].
  destruct data as [|d3 [|d4 rest]]; try discriminate.
  cbn [getitem lookup list_lookup mbind result_bind].
  destruct (Z.eqb_spec (Z.of_nat (length (d0 :: d1 :: 250 :: d3 :: d4 :: rest))) 7)
    as [H7|H7].
  - destruct rest as [|d5 [|d6 [|d7 rest]]]; cbn [length] in H7; try lia.
    cbn. intros [= <-]. exists d0, d1, d3, d4, [d5; d6]. cbn. eauto 12.
  - cbn. intros [= <-]. exists d0, d1, d3, d4, rest. cbn.
    split; [reflexivity|]. split; [exact Hlen|]. do 3 (split; [reflexivity|]).
    left. split; [reflexivity|]. cbn in H7. lia.
Qed.

Lemma word_bound (hi lo : Z) :
  0 <= Z.lor (Z.shiftl (Z.land hi 0xff) 8) (Z.land lo 0xff) <= 65535.
Proof.
  assert (H0 : 0 <= Z.lor (Z.shiftl (Z.land hi 0xff) 8) (Z.land lo 0xff)).
  { apply Z.lor_nonneg. split; [apply Z.shiftl_nonneg|]; apply Z.land_nonneg; lia. }
  split; [assumption|].
  enough (Z.lor (Z.shiftl (Z.land hi 0xff) 8) (Z.land lo 0xff) < 2 ^ 16) by lia.
  apply Z.bounded_iff_bits_nonneg; [lia|assumption|].
  intros i Hi.
  repeat first [ rewrite Z.lor_spec | rewrite Z.land_spec | rewrite testbit_shiftl
               | rewrite testbit_ff ].
  bits_cases.
Qed.

Lemma receiver_bound (d0 d1 : Z) :
  0 <= Z.lor (Z.shiftl (Z.land d0 0xf0) 3) (Z.land d1 0x7f) <= 2047.
Proof.
  assert (H0 : 0 <= Z.lor (Z.shiftl (Z.land d0 0xf0) 3) (Z.land d1 0x7f)).
  { apply Z.lor_nonneg. split; [apply Z.shiftl_nonneg|]; apply Z.land_nonneg; lia. }
  split; [assumption|].
  enough (Z.lor (Z.shiftl (Z.land d0 0xf0) 3) (Z.land d1 0x7f) < 2 ^ 11) by lia.
  apply Z.bounded_iff_bits_nonneg; [lia|assumption|].
  intros i Hi.
  repeat first [ rewrite Z.lor_spec | rewrite Z.land_spec | rewrite testbit_shiftl
               | rewrite testbit_f0 | rewrite testbit_7f ].
  bits_cases.
Qed.

Lemma decode_ranges (data : list Z) (size : Z)
    (type receiver register : Z) (value : option Z) :
  decode_elster_data data size = Ok (type, receiver, register, value) ->
  0 <= type <= 15 /\ 0 <= receiver <= 2047 /\ 0 <= register <= 65535
  /\ match value with
     | Some v => length data = 7%nat /\ 0 <= v <= 65535
     | None => length data <> 7%nat
     end.
Proof.
  intros Hdec.
  destruct (decode_ok_inv data size _ Hdec)
    as (d0 & d1 & d3 & d4 & rest & -> & _ & Ht & Hr & Hg & Hv).
  cbn [fst snd] in *. subst type receiver register.
  split.
  { pose proof (land_byte d0 0x0f ltac:(lia)).
    assert (Z.land d0 0x0f <= 0x0f); [|lia].
    rewrite mask_0f, Z.land_ones by lia.
    pose proof (Z.mod_pos_bound d0 (2 ^ 4) ltac:(lia)). change (Z.ones 4) with 15.
    change (2 ^ 4) with 16 in *. lia. }
  split; [apply receiver_bound|]. split; [apply word_bound|].
  destruct Hv as [[-> Hlen]|(d5 & d6 & -> & ->)]; [exact Hlen|].
  split; [reflexivity|apply word_bound].
Qed.

(** Whatever integers the list holds, the decoded fields are in range: a
    type of 4 bits, a receiver of 11 bits, a register of 16 bits, and a value
    of 16 bits that is present exactly for a list of seven elements. *)
Theorem decode_fields_in_range (data : list Z) (size : Z)
    (type receiver register : Z) (value : option Z) :
  decode_elster_data data size = Ok (type, receiver, register, value) ->
  0 <= type <= 15 /\ 0 <= receiver <= 2047 /\ 0 <= register <= 65535
  /\ match value with
     | Some v => length data = 7%nat /\ 0 <= v <= 65535
     | None => length data <> 7%nat
     end.
Proof. apply decode_ranges. Qed.

Lemma decode_fields_in_range_witness :
  0 <= 0x2 <= 15 /\ 0 <= 0x123 <= 2047 /\ 0 <= 0xdeaf <= 65535
  /\ length (data test_response) = 7%nat /\ 0 <= 0xdead <= 65535.
Proof.
  apply (decode_fields_in_range (data test_response) 7 0x2 0x123 0xdeaf
           (Some 0xdead)).
  reflexivity.
Defined.

Lemma byte0_back (d0 d1 : Z) :
  0 <= d0 <= 255 ->
  Z.lor (Z.land (Z.shiftr (Z.lor (Z.shiftl (Z.land d0 0xf0) 3)
                                 (Z.land d1 0x7f)) 3) 0xf0)
        (Z.land (Z.land d0 0x0f) 0x0f) = d0.
Proof.
  intros Hd0. bitwise i Hi.
  replace (i + 3 - 3) with i by lia.
  destruct (Z.lt_ge_cases i 8).
  - bits_cases; destruct (Z.testbit d0 i), (Z.testbit d1 (i + 3)); reflexivity.
  - rewrite (testbit_bounded 8 d0 i) by lia. bits_cases.
Qed.

Lemma byte1_back (d0 d1 : Z) :
  0 <= d1 <= 127 ->
  Z.land (Z.lor (Z.shiftl (Z.land d0 0xf0) 3) (Z.land d1 0x7f)) 0x7f = d1.
Proof.
  intros Hd1. bitwise i Hi.
  destruct (Z.lt_ge_cases i 7).
  - bits_cases; destruct (Z.testbit d1 i), (Z.testbit d0 (i - 3)); reflexivity.
  - rewrite (testbit_bounded 7 d1 i) by lia. bits_cases.
Qed.

Lemma high_byte_back (hi lo : Z) :
  0 <= hi <= 255 ->
  Z.land (Z.shiftr (Z.lor (Z.shiftl (Z.land hi 0xff) 8) (Z.land lo 0xff)) 8)
         0xff = hi.
Proof.
  intros Hhi. bitwise i Hi.
  replace (i + 8 - 8) with i by lia.
  destruct (Z.lt_ge_cases i 8).
  - bits_cases; destruct (Z.testbit hi i), (Z.testbit lo (i + 8)); reflexivity.
  - rewrite (testbit_bounded 8 hi i) by lia. bits_cases.
Qed.

Lemma low_byte_back (hi lo : Z) :
  0 <= lo <= 255 ->
  Z.land (Z.lor (Z.shiftl (Z.land hi 0xff) 8) (Z.land lo 0xff)) 0xff = lo.
Proof.
  intros Hlo. bitwise i Hi.
  destruct (Z.lt_ge_cases i 8).
  - bits_cases; destruct (Z.testbit lo i), (Z.testbit hi (i - 8)); reflexivity.
  - rewrite (testbit_bounded 8 lo i) by lia. bits_cases.
Qed.

(** Encoding inverts decoding on the frames the encoder can produce: a list
    of five or seven byte values, with bit 7 of the second byte clear, that
    decodes to a request without a value or to a response with one, is what
    encoding the decoded fields gives back. *)
Theorem encode_decode_roundtrip (data : list Z) (size : Z)
    (receiver register : Z) (value : option Z) :
  size = 5 \/ size = 7 ->
  Forall (fun b => 0 <= b <= 255) data ->
  (forall d1, data !! 1%nat = Some d1 -> d1 <= 127) ->
  decode_elster_data data size
  = Ok (match value with None => TYPE_REQUEST | Some _ => TYPE_RESPONSE end,
        receiver, register, value) ->
  encode_elster_data receiver register value = data.
Proof.
  intros Hsize Hbytes Hd1 Hdec.
  destruct (decode_ok_inv data size _ Hdec)
    as (d0 & d1 & d3 & d4 & rest & -> & Hlen & Ht & Hr & Hg & Hv).
  cbn [fst snd] in *.
  specialize (Hd1 d1 eq_refl).
  repeat match goal with
         | H : Forall _ (_ :: _) |- _ => apply Forall_cons in H as [? H]
         end.
  destruct Hv as [[-> Hnot7]|(d5 & d6 & -> & ->)].
  - assert (rest = []) as ->.
    { destruct rest; [reflexivity|]. cbn [length] in *. lia. }
    rewrite encode_request_bytes, Ht, Hr, Hg.
    rewrite byte0_back, byte1_back, high_byte_back, low_byte_back by lia.
    reflexivity.
  - repeat match goal with
           | H : Forall _ (_ :: _) |- _ => apply Forall_cons in H as [? H]
           end.
    rewrite encode_response_bytes, Ht, Hr, Hg.
    rewrite byte0_back, byte1_back, !high_byte_back, !low_byte_back by lia.
    reflexivity.
Qed.

Lemma encode_decode_roundtrip_witness :
  encode_elster_data 0x123 0xdeaf (Some 0xdead) = data test_response.
Proof.
  apply (encode_decode_roundtrip (data test_response) 7 0x123 0xdeaf
           (Some 0xdead)).
  - right. reflexivity.
  - vm_compute. repeat forall_step; split; discriminate.
  - intros d1 [= <-]. vm_compute. discriminate.
  - reflexivity.
Defined.

(** ** Strings and the directory: forms accepted, and failures *)

(** [split] returns one part more than there are separators. *)
Lemma split_length (sep : ascii) (s : string) :
  length (split sep s) = S (occurrences sep s).
Proof.
  induction s as [|c s IH]; [reflexivity|].
  cbn [split occurrences]. destruct (Ascii.eqb c sep).
  - cbn [length]. rewrite IH. reflexivity.
  - destruct (split sep s) as [|h t]; cbn [length] in *; lia.
Qed.

Lemma scan_digits_then (s : string) (stop : ascii) (rest : string) :
  all_hex s = true ->
  hex_digit_value stop = None -> stop <> "_"%char ->
  forall (acc : Z) (digits : nat),
    scan_digits (s +:+ String stop rest) acc digits false
    = Some (acc * 16 ^ Z.of_nat (String.length s) + hex_value s,
            (digits + String.length s)%nat, String stop rest).
Proof.
  intros Hs Hstop Hus. induction s as [|c s IH]; intros acc digits.
  - change (EmptyString +:+ String stop rest) with (String stop rest).
    cbn [scan_digits]. rewrite Hstop.
    destruct (Ascii.eqb_spec stop "_"); [contradiction|].
    cbn. repeat f_equal; lia.
  - cbn [all_hex] in Hs. apply andb_true_iff in Hs as [Hc Hs].
    apply bool_decide_eq_true in Hc. destruct Hc as [d Hd].
    change (String c s +:+ String stop rest)
      with (String c (s +:+ String stop rest)).
    cbn [scan_digits hex_value String.length]. rewrite Hd, IH by assumption.
    cbn [default]. rewrite Nat2Z.inj_succ, Z.pow_succ_r by lia.
    replace (S digits + String.length s)%nat
      with (digits + S (String.length s))%nat by lia.
    do 3 f_equal. unfold id. ring.
Qed.

(** The hexadecimal literals [int16] accepts besides bare digits: a [0x] or
    [0X] prefix, a sign (a minus sign negates), and white space around. *)
Theorem int16_forms (s : string) :
  is_hex s = true ->
  int16 s = Ok (hex_value s)
  /\ int16 ("0x" +:+ s) = Ok (hex_value s)
  /\ int16 ("0X" +:+ s) = Ok (hex_value s)
  /\ int16 ("+" +:+ s) = Ok (hex_value s)
  /\ int16 ("-" +:+ s) = Ok (- hex_value s)
  /\ int16 (" " +:+ s +:+ " ") = Ok (hex_value s).
Proof.
  intros Hhex. split; [apply int16_hex; assumption|].
  unfold is_hex in Hhex. apply andb_true_iff in Hhex as [Hne Hs].
  destruct s as [|c s]; [discriminate|].
  destruct (hex_head c s Hs) as (Hstrip & Hsign & Hprefix & Hus).
  pose proof (scan_digits_hex _ Hs 0 0%nat) as Hscan.
  assert (Hc : is_space c = false /\ c <> "_"%char /\ c <> "+"%char
               /\ c <> "-"%char).
  { cbn [all_hex] in Hs. apply andb_true_iff in Hs as [Hc _].
    apply bool_decide_eq_true in Hc.
    destruct (hex_digit_char c Hc) as (? & ? & ? & ? & _). auto. }
  destruct Hc as (Hsp & Hcus & Hcplus & Hcminus).
  assert (Hskip : forall x : ascii,
            x = "x"%char \/ x = "X"%char ->
            skip_prefix (String "0" (String x (String c s))) = String c s).
  { intros x [-> | ->]; cbn;
      destruct c as [[] [] [] [] [] [] [] []]; try reflexivity; congruence. }
  repeat split.
  - unfold int16.
    change (lstrip ("0x" +:+ String c s)) with (String "0" (String "x" (String c s))).
    change (split_sign (String "0" (String "x" (String c s))))
      with (false, String "0" (String "x" (String c s))).
    cbv beta iota zeta. rewrite Hskip, Hus, Hscan by auto. reflexivity.
  - unfold int16.
    change (lstrip ("0X" +:+ String c s)) with (String "0" (String "X" (String c s))).
    change (split_sign (String "0" (String "X" (String c s))))
      with (false, String "0" (String "X" (String c s))).
    cbv beta iota zeta. rewrite Hskip, Hus, Hscan by auto. reflexivity.
  - unfold int16.
    change (split_sign (lstrip ("+" +:+ String c s))) with (false, String c s).
    cbv beta iota zeta. rewrite Hprefix, Hus, Hscan. reflexivity.
  - unfold int16.
    change (split_sign (lstrip ("-" +:+ String c s))) with (true, String c s).
    cbv beta iota zeta. rewrite Hprefix, Hus, Hscan. reflexivity.
  - unfold int16.
    change (lstrip (" " +:+ String c s +:+ " "))
      with (lstrip (String c (s +:+ " "))).
    cbn [lstrip]. rewrite Hsp.
    assert (Hsign' : split_sign (String c (s +:+ " "))
                     = (false, String c (s +:+ " "))).
    { destruct c as [[] [] [] [] [] [] [] []]; try reflexivity; congruence. }
    rewrite Hsign'. cbv beta iota zeta.
    assert (Hprefix' : skip_prefix (String c (s +:+ " ")) = String c (s +:+ " ")).
    { destruct s as [|x s'].
      - destruct c as [[] [] [] [] [] [] [] []]; reflexivity.
      - cbn [all_hex] in Hs. apply andb_true_iff in Hs as [_ Hs].
        apply andb_true_iff in Hs as [Hx _]. apply bool_decide_eq_true in Hx.
        destruct (hex_digit_char x Hx) as (_ & _ & _ & _ & Hx' & HX' & _).
        change (String x s' +:+ " ") with (String x (s' +:+ " ")).
        unfold skip_prefix.
        destruct (Ascii.eqb_spec x "x"); [contradiction|].
        destruct (Ascii.eqb_spec x "X"); [contradiction|].
        destruct c as [[] [] [] [] [] [] [] []]; reflexivity. }
    rewrite Hprefix'.
    assert (Hus' : starts_with_underscore (String c (s +:+ " ")) = false).
    { destruct c as [[] [] [] [] [] [] [] []]; try reflexivity; congruence. }
    rewrite Hus'.
    change (String c (s +:+ " ")) with (String c s +:+ String " " EmptyString).
    rewrite (scan_digits_then (String c s) " " EmptyString Hs)
      by (reflexivity || discriminate).
    reflexivity.
Qed.

Lemma int16_forms_witness :
  int16 "123" = Ok 0x123
  /\ int16 "0x123" = Ok 0x123
  /\ int16 "0X123" = Ok 0x123
  /\ int16 "+123" = Ok 0x123
  /\ int16 "-123" = Ok (- 0x123)
  /\ int16 " 123 " = Ok 0x123.
Proof. apply (int16_forms "123"). reflexivity. Defined.

(** The directory holds exactly the names of the entries, each mapped to an
    entry of the list that bears it. *)
Theorem directory_entries (entries : list Entry) :
  (forall (n : string) (e : Entry),
      directory entries !! n = Some e -> e ∈ entries /\ name e = n)
  /\ (forall e : Entry, e ∈ entries -> is_Some (directory entries !! name e)).
Proof.
  induction entries as [|x entries [IHget IHin]] using rev_ind.
  - split.
    + intros n e. unfold directory. cbn. rewrite lookup_empty. discriminate.
    + intros e He. inversion He.
  - assert (Hstep : directory (entries ++ [x])
                    = <[name x := x]> (directory entries)).
    { unfold directory. rewrite foldl_app. reflexivity. }
    rewrite Hstep. split.
    + intros n e. rewrite lookup_insert.
      destruct (decide (name x = n)) as [<-|Hne].
      * intros [= <-]. split; [|reflexivity]. apply elem_of_app. right. left.
      * intros He. destruct (IHget n e He) as [Hin Hname].
        split; [|assumption]. apply elem_of_app. left. assumption.
    + intros e He. rewrite lookup_insert.
      destruct (decide (name x = name e)); [eauto|].
      apply elem_of_app in He as [He|He]; [auto|].
      apply list_elem_of_singleton in He. congruence.
Qed.

(** How a lookup fails: with [ElsterInvalidName] for a name the directory
    does not hold, and with [ValueError], which is no [ElsterError], for an
    entry whose index has not exactly one dot, or has a part that is no
    hexadecimal literal. *)
Theorem config_lookup_failure (self : ElsterBus) (n : string) (e : exn) :
  config_lookup self n = Raise e ->
  match config self !! n with
  | None => e = ElsterInvalidName
  | Some c =>
      e = ValueError /\ is_ElsterError e = false
      /\ (occurrences "." (index c) <> 1%nat
          \/ Exists (fun part => int16 part = Raise ValueError)
               (split "." (index c)))
  end.
Proof.
  unfold config_lookup.
  destruct (config self !! n) as [c|]; [|congruence].
  pose proof (split_length "." (index c)) as Hlen.
  destruct (split "." (index c)) as [|rec [|reg [|x parts]]];
    cbn [length] in Hlen;
    try (intros [= <-]; split; [reflexivity|]; split; [reflexivity|];
         left; lia).
  destruct (int16 rec) as [v1|e1] eqn:H1; cbn [mbind result_bind].
  - destruct (int16 reg) as [v2|e2] eqn:H2; cbn [mbind result_bind mret result_ret];
      [discriminate|].
    intros [= <-]. pose proof (int16_raises _ _ H2) as ->.
    split; [reflexivity|]. split; [reflexivity|]. right.
    apply Exists_cons_tl, Exists_cons_hd. assumption.
  - intros [= <-]. pose proof (int16_raises _ _ H1) as ->.
    split; [reflexivity|]. split; [reflexivity|]. right.
    apply Exists_cons_hd. assumption.
Qed.

Lemma config_lookup_failure_witness :
  ValueError = ValueError /\ is_ElsterError ValueError = false
  /\ (occurrences "." "180deaf" <> 1%nat
      \/ Exists (fun part => int16 part = Raise ValueError)
           (split "." "180deaf")).
Proof.
  apply (config_lookup_failure
           {| channel := "dummy"; sender := 0x123;
              config := directory [ {| name := "FOO"; index := "180deaf";
                                       format := None |} ];
              simulate := false |}
           "FOO" ValueError).
  vm_compute. reflexivity.
Defined.

(** ** What a read does to the bus *)

Lemma recv_effects (timeout : Z) (w : World) :
  sent (snd (recv timeout w)) = sent w
  /\ printed (snd (recv timeout w)) = printed w
  /\ recv_timeouts (snd (recv timeout w)) = recv_timeouts w ++ [timeout]
  /\ clock (snd (recv timeout w)) <= clock w + Z.max 0 timeout.
Proof.
  unfold recv. destruct (pending w) as [|[gap m] rest]; cbn;
    [repeat split; lia|].
  destruct (Z.leb_spec gap timeout); cbn; repeat split; lia.
Qed.

Lemma read_iteration_reported (self : ElsterBus) (receiver : option Z)
    (fmt : option string) (m : option Message) (e : exn) :
  read_iteration self receiver fmt m = Reported e ->
  e = ElsterDataSizeError \/ e = ElsterDataByte2Error.
Proof.
  destruct m as [m|]; [|discriminate].
  destruct (ElsterMessage_init None None None (Some m) fmt) as [msg|e'] eqn:Hinit.
  - unfold read_iteration. rewrite Hinit. destruct (_ && _); discriminate.
  - destruct (read_iteration_failure self receiver fmt m e' Hinit) as [He ->].
    intros [= <-]. exact He.
Qed.

(** The loop sends nothing, gives every [recv] the whole timeout, prints
    frame errors only, and keeps the clock below the start time plus twice
    the timeout. *)
Lemma read_loop_effects (self : ElsterBus) (receiver : option Z)
    (fmt : option string) (start_time timeout : Z) :
  forall (fuel : nat) (w : World),
    let w' := snd (read_loop fuel self receiver fmt start_time timeout w) in
    sent w' = sent w
    /\ (exists k : nat,
           recv_timeouts w' = recv_timeouts w ++ replicate k timeout)
    /\ (exists errs : list exn,
           printed w' = printed w ++ errs
           /\ Forall (fun e => e = ElsterDataSizeError
                               \/ e = ElsterDataByte2Error) errs)
    /\ (0 < timeout -> clock w < start_time + 2 * timeout ->
        clock w' < start_time + 2 * timeout).
Proof.
  induction fuel as [|fuel IH]; intros w; cbn zeta.
  { cbn. split; [reflexivity|]. split; [exists 0%nat; cbn; symmetry; apply app_nil_r|].
    split; [exists []; split; [symmetry; apply app_nil_r|constructor]|]. auto. }
  cbn [read_loop].
  destruct (Z.ltb_spec (time w) (start_time + timeout)) as [Hnow|Hnow].
  2:{ cbn. split; [reflexivity|]. split; [exists 0%nat; cbn; symmetry; apply app_nil_r|].
      split; [exists []; split; [symmetry; apply app_nil_r|constructor]|]. auto. }
  destruct (recv_effects timeout w) as (Hsent & Hprinted & Htimeouts & Hclock).
  destruct (recv timeout w) as [m w1]. cbn [snd] in *. unfold time in Hnow.
  assert (Hbound : 0 < timeout -> clock w1 < start_time + 2 * timeout) by lia.
  destruct (read_iteration self receiver fmt m) as [msg| |e|e] eqn:Hstep.
  - cbn. split; [assumption|]. split; [exists 1%nat; assumption|].
    split; [exists []; rewrite Hprinted; split; [symmetry; apply app_nil_r|constructor]|].
    auto.
  - destruct (IH w1) as (Hs & [k Hk] & (errs & Hp & Herrs) & Hc).
    split; [congruence|].
    split; [exists (S k); rewrite Hk, Htimeouts, <- app_assoc; reflexivity|].
    split; [exists errs; rewrite Hp, Hprinted; auto|]. auto.
  - destruct (IH (print e w1)) as (Hs & [k Hk] & (errs & Hp & Herrs) & Hc).
    cbn [print sent recv_timeouts printed clock] in *.
    split; [congruence|].
    split; [exists (S k); rewrite Hk, Htimeouts, <- app_assoc; reflexivity|].
    split; [|auto].
    exists (e :: errs). rewrite Hp, Hprinted, <- app_assoc.
    split; [reflexivity|]. constructor; [|assumption].
    eapply read_iteration_reported. eassumption.
  - cbn. split; [assumption|]. split; [exists 1%nat; assumption|].
    split; [exists []; rewrite Hprinted; split; [symmetry; apply app_nil_r|constructor]|].
    auto.
Qed.



(** Every call of [recv] during a read is given the whole timeout, and the
    read is over before twice the timeout has passed. *)
Theorem read_wait_bound (self : ElsterBus) (rc rg : Z) (fmt : option string)
    (timeout : Z) (w : World) :
  simulate self = false -> 0 < timeout ->
  (exists k : nat,
      recv_timeouts (snd (read self None (Some rc) (Some rg) fmt timeout w))
      = recv_timeouts w ++ replicate k timeout)
  /\ clock (snd (read self None (Some rc) (Some rg) fmt timeout w))
     < clock w + 2 * timeout.
Proof.
  intros Hsim Htimeout. rewrite read_explicit by assumption.
  destruct (read_loop_effects self (Some rc) fmt (clock w) timeout
              (S (length (pending w))) (send (request_of self rc rg fmt) w))
    as (_ & Hk & _ & Hclock).
  split; [exact Hk|]. apply Hclock; cbn; lia.
Qed.

Lemma read_wait_bound_witness :
  (exists k : nat,
      recv_timeouts
        (snd (read test_bus None (Some 0x180) (Some 0xdeaf) None 10
                late_response))
      = recv_timeouts late_response ++ replicate k 10)
  /\ clock (snd (read test_bus None (Some 0x180) (Some 0xdeaf) None 10
                   late_response))
     < clock late_response + 2 * 10.
Proof.
  apply (read_wait_bound test_bus 0x180 0xdeaf None 10 late_response);
    [reflexivity|lia].
Defined.

(** What a read prints are the frame errors of frames it could not decode,
    and nothing else. *)
Theorem read_prints_frame_errors (self : ElsterBus) (name : option string)
    (receiver register : option Z) (fmt : option string) (timeout : Z)
    (w : World) :
  exists errs : list exn,
    printed (snd (read self name receiver register fmt timeout w))
    = printed w ++ errs
    /\ Forall (fun e => e = ElsterDataSizeError \/ e = ElsterDataByte2Error)
         errs.
Proof.
  assert (Hnone : exists errs : list exn,
             printed w = printed w ++ errs
             /\ Forall (fun e => e = ElsterDataSizeError
                                 \/ e = ElsterDataByte2Error) errs)
    by (exists []; split; [symmetry; apply app_nil_r|constructor]).
  unfold read.
  destruct (if truthy name then _ else _) as [[[rc rg] f]|e]; [|exact Hnone].
  destruct (ElsterMessage_init _ _ _ _ _) as [msg|e]; [|exact Hnone].
  destruct (simulate self); [exact Hnone|].
  destruct (read_loop_effects self rc f (time (send msg w)) timeout
              (S (length (pending (send msg w)))) (send msg w))
    as (_ & _ & Hp & _).
  exact Hp.
Qed.

(** ** How a read ends without a response *)

Lemma total_gap_cons (gap : Z) (m : Message) (frames : list (Z * Message)) :
  total_gap ((gap, m) :: frames) = gap + total_gap frames.
Proof. reflexivity. Qed.

Lemma total_gap_nil : total_gap [] = 0.
Proof. reflexivity. Qed.

Ltac gaps :=
  rewrite ?total_gap_cons, ?total_gap_nil in *; cbn [arrives app] in *.

(** The loop ends with the time-out exactly when frames that are not
    acceptable keep reaching it until the deadline has passed. *)
Lemma read_loop_times_out (self : ElsterBus) (rc : Z) (fmt : option string)
    (start_time timeout : Z) :
  forall (fuel : nat) (w : World),
    (length (pending w) < fuel)%nat ->
    fst (read_loop fuel self (Some rc) fmt start_time timeout w)
    = Raised ElsterReadTimedOut
    <-> exists pre post,
        pending w = pre ++ post
        /\ Forall (fun x => acceptable self rc x.2 = false) pre
        /\ arrives (start_time + timeout) timeout (clock w) pre
        /\ start_time + timeout <= clock w + total_gap pre.
Proof.
  induction fuel as [|fuel IH]; intros w Hfuel; [lia|].
  destruct (Z.lt_ge_cases (time w) (start_time + timeout)) as [Hnow|Hnow].
  2:{ rewrite read_loop_timed_out by lia. split; [|reflexivity].
      intros _. exists [], (pending w). unfold time in Hnow. gaps.
      split; [reflexivity|]. split; [constructor|]. split; [exact I|lia]. }
  destruct (pending w) as [|[gap m] rest] eqn:Hp.
  { rewrite read_loop_recv_none;
      [|assumption|apply recv_none; rewrite Hp; exact I].
    unfold time in Hnow. split; [discriminate|].
    intros ([|x pre] & post & Hsplit & _ & _ & Hlate);
      [gaps; lia|discriminate]. }
  destruct (Z.le_gt_cases gap timeout) as [Hgap|Hgap].
  2:{ rewrite read_loop_recv_none;
        [|assumption|apply recv_none; rewrite Hp; lia].
      unfold time in Hnow. split; [discriminate|].
      intros ([|[g0 m0] pre] & post & Hsplit & _ & Harr & Hlate);
        [gaps; lia|].
      gaps. injection Hsplit as -> -> _. lia. }
  rewrite (read_loop_recv_frame fuel self (Some rc) fmt start_time timeout w
             gap m rest Hnow Hp Hgap).
  cbn zeta. unfold time in Hnow.
  destruct (read_iteration_frame self rc fmt m)
    as [(Hacc & msg0 & Hinit & ->)|[Hacc Hstep]].
  - cbn [fst]. split; [discriminate|].
    intros ([|[g0 m0] pre] & post & Hsplit & Hpre & _ & Hlate);
      [gaps; lia|].
    gaps. injection Hsplit as -> -> _.
    apply Forall_cons in Hpre as [Hm _]. cbn [snd] in Hm. congruence.
  - assert (Hrest : forall w'' : World,
              pending w'' = rest -> clock w'' = clock w + gap ->
              fst (read_loop fuel self (Some rc) fmt start_time timeout w'')
              = Raised ElsterReadTimedOut
              <-> exists pre post,
                  (gap, m) :: rest = pre ++ post
                  /\ Forall (fun x => acceptable self rc x.2 = false) pre
                  /\ arrives (start_time + timeout) timeout (clock w) pre
                  /\ start_time + timeout <= clock w + total_gap pre).
    { intros w'' Hp'' Hc''.
      rewrite IH by (rewrite Hp''; cbn [length] in Hfuel; lia).
      rewrite Hp'', Hc''. split.
      - intros (pre & post & -> & Hpre & Harr & Hlate).
        exists ((gap, m) :: pre), post. gaps.
        split; [reflexivity|]. split; [constructor; assumption|].
        split; [auto|lia].
      - intros ([|[g0 m0] pre] & post & Hsplit & Hpre & Harr & Hlate);
          [gaps; lia|].
        gaps. injection Hsplit as -> -> Hrest.
        apply Forall_cons in Hpre as [_ Hpre].
        exists pre, post.
        split; [assumption|]. split; [assumption|]. split; [tauto|lia]. }
    destruct Hstep as [->|(e & _ & ->)]; apply Hrest; reflexivity.
Qed.


(** A read ends with [ElsterReadTimedOut] exactly when frames that are not
    acceptable reach the loop until the deadline has passed; in particular,
    with a positive timeout, never on a bus without traffic. *)
Theorem read_times_out (self : ElsterBus) (rc rg : Z) (fmt : option string)
    (timeout : Z) (w : World) :
  simulate self = false ->
  fst (read self None (Some rc) (Some rg) fmt timeout w)
  = Raised ElsterReadTimedOut
  <-> exists pre post,
      pending w = pre ++ post
      /\ Forall (fun x => acceptable self rc x.2 = false) pre
      /\ arrives (clock w + timeout) timeout (clock w) pre
      /\ timeout <= total_gap pre.
Proof.
  intros Hsim. rewrite read_explicit by assumption.
  rewrite (read_loop_times_out self rc fmt (clock w) timeout
             (S (length (pending w))) (send (request_of self rc rg fmt) w))
    by (cbn; lia).
  cbn [send pending clock].
  split; intros (pre & post & H1 & H2 & H3 & H4); exists pre, post;
    repeat split; try assumption; lia.
Qed.

Lemma read_times_out_witness :
  fst (read test_bus None (Some 0x180) (Some 0xdeaf) None 10
         (fresh 0 [(6, stray_frame); (4, stray_frame); (1, test_response)]))
  = Raised ElsterReadTimedOut.
Proof.
  apply (read_times_out test_bus 0x180 0xdeaf None 10
           (fresh 0 [(6, stray_frame); (4, stray_frame); (1, test_response)])
           eq_refl).
  exists [(6, stray_frame); (4, stray_frame)], [(1, test_response)].
  split; [reflexivity|]. split; [repeat constructor|].
  cbn. lia.
Defined.



(** With a timeout of zero or less the request is sent all the same, [recv]
    is not called, and the read fails with [ElsterReadTimedOut] at once. *)
Theorem read_without_time (self : ElsterBus) (rc rg : Z) (fmt : option string)
    (timeout : Z) (w : World) :
  simulate self = false -> timeout <= 0 ->
  read self None (Some rc) (Some rg) fmt timeout w
  = (Raised ElsterReadTimedOut, send (request_of self rc rg fmt) w).
Proof.
  intros Hsim Htimeout. rewrite read_explicit by assumption.
  apply read_loop_timed_out. cbn. lia.
Qed.

Lemma read_without_time_witness :
  read test_bus None (Some 0x180) (Some 0xdeaf) None 0
    (fresh 0 [(0, test_response)])
  = (Raised ElsterReadTimedOut,
     send (request_of test_bus 0x180 0xdeaf None) (fresh 0 [(0, test_response)])).
Proof.
  apply (read_without_time test_bus 0x180 0xdeaf None 0
           (fresh 0 [(0, test_response)])); [reflexivity|lia].
Defined.

(** ** The request: by name, simulated, or not to be built *)

(** With a name, the addresses and the format come from the directory, and
    the ones passed along are ignored. *)
Theorem read_by_name (self : ElsterBus) (n : string) (rc rg : Z)
    (f : option string) (receiver register : option Z) (fmt : option string)
    (timeout : Z) (w : World) :
  n <> EmptyString ->
  config_lookup self n = Ok (rc, rg, f) ->
  read self (Some n) receiver register fmt timeout w
  = read self None (Some rc) (Some rg) f timeout w.
Proof.
  intros Hn Hlookup. unfold read. cbn [truthy default from_option id].
  destruct (String.eqb_spec n EmptyString) as [|_]; [contradiction|].
  cbn [negb]. rewrite Hlookup. reflexivity.
Qed.

Lemma read_by_name_witness :
  read test_bus (Some "FOO"%string) (Some 1) None (Some "dec_val"%string) 30
    (fresh 0 [(1, test_response)])
  = read test_bus None (Some 0x180) (Some 0xdeaf) None 30
      (fresh 0 [(1, test_response)]).
Proof.
  apply (read_by_name test_bus "FOO" 0x180 0xdeaf None (Some 1) None
           (Some "dec_val"%string) 30 (fresh 0 [(1, test_response)]));
    [discriminate|reflexivity].
Defined.

(** A read that cannot build its request fails before anything is sent,
    simulated or not: with [ElsterInvalidName] for a name the directory does
    not hold, and with [TypeError] when, without a name, the receiver or the
    register is missing. *)
Theorem read_fails_before_sending (self : ElsterBus)
    (receiver register : option Z) (fmt : option string) (timeout : Z)
    (w : World) :
  (forall n : string,
      n <> EmptyString -> config self !! n = None ->
      read self (Some n) receiver register fmt timeout w
      = (Raised ElsterInvalidName, w))
  /\ (forall name : option string,
         truthy name = false -> receiver = None \/ register = None ->
         read self name receiver register fmt timeout w
         = (Raised TypeError, w)).
Proof.
  split.
  - intros n Hn Habsent. unfold read. cbn [truthy default from_option id].
    destruct (String.eqb_spec n EmptyString) as [|_]; [contradiction|].
    cbn [negb]. unfold config_lookup. rewrite Habsent. reflexivity.
  - intros name Hname Hmissing. unfold read. rewrite Hname.
    cbn [mret result_ret].
    destruct Hmissing as [-> | ->]; [reflexivity|].
    destruct receiver; reflexivity.
Qed.

(** ** The message a read returns *)

(** A message with a 16-bit value formats, or fails for its format alone. *)
Lemma formatted_value_16bit (msg : ElsterMessage) (v : Z) :
  em_value msg = Some v -> 0 <= v <= 65535 ->
  formatted_value msg = Raise KeyError
  \/ exists r : pyval, formatted_value msg = Ok r.
Proof.
  intros Hval Hv.
  destruct (format_quotients v Hv) as (x & Hx & _).
  unfold formatted_value. rewrite Hval.
  destruct (negb (truthy (em_fmt msg))); [eauto|].
  rewrite Hx. cbn [mbind result_bind].
  destruct (_ !! _); eauto.
Qed.

(** What the loop accepts decodes as a response from the requested device
    to the session. *)
Lemma acceptable_inv (self : ElsterBus) (rc : Z) (m : Message) :
  acceptable self rc m = true ->
  exists register value,
    decode_elster_data (data m) 7
    = Ok (TYPE_RESPONSE, sender self, register, value)
    /\ arbitration_id m = rc.
Proof.
  unfold acceptable.
  destruct (decode_elster_data (data m) 7)
    as [[[[type rcv] register] value]|e]; [|discriminate].
  intros H. apply andb_true_iff in H as [H Hrcv].
  apply andb_true_iff in H as [Htype Hid].
  apply Z.eqb_eq in Htype, Hid, Hrcv. subst. eauto.
Qed.

(** The message a read on a real bus returns is a response, from the
    requested device, to the session, with the requested format and with a
    register and a value of 16 bits (the register is whatever the frame
    carried); formatting its value can fail only with [KeyError]. *)
Theorem read_returned_message (self : ElsterBus) (rc rg : Z)
    (fmt : option string) (timeout : Z) (w : World) (msg : ElsterMessage) :
  simulate self = false ->
  fst (read self None (Some rc) (Some rg) fmt timeout w) = Returned msg ->
  em_type msg = TYPE_RESPONSE
  /\ em_sender msg = Some rc
  /\ em_receiver msg = Some (sender self)
  /\ em_fmt msg = fmt
  /\ (exists register value,
         em_register msg = Some register /\ 0 <= register <= 65535
         /\ em_value msg = Some value /\ 0 <= value <= 65535)
  /\ (formatted_value msg = Raise KeyError
      \/ exists r : pyval, formatted_value msg = Ok r).
Proof.
  intros Hsim Hret. rewrite read_explicit in Hret by assumption.
  apply (read_loop_returns self rc fmt (clock w) timeout msg
           (S (length (pending w))) (send (request_of self rc rg fmt) w))
    in Hret; [|cbn; lia].
  destruct Hret as (pre & gap & m & post & _ & _ & Hacc & Hinit & _).
  destruct (acceptable_inv self rc m Hacc) as (register & value & Hdec & Hid).
  rewrite ElsterMessage_init_frame, Hdec in Hinit. injection Hinit as <-.
  cbn [em_type em_sender em_receiver em_fmt em_register em_value].
  destruct (decode_ranges _ _ _ _ _ _ Hdec) as (_ & _ & Hreg & Hval).
  destruct (decode_ok_inv _ _ _ Hdec) as (? & ? & ? & ? & ? & _ & Hlen & _).
  destruct value as [value|]; [|exfalso; lia].
  destruct Hval as [_ Hval].
  repeat split; try congruence; [eauto 10|].
  apply (formatted_value_16bit _ value); [reflexivity|assumption].
Qed.

Lemma read_returned_message_witness :
  em_type (response_with 0xdead None) = TYPE_RESPONSE
  /\ em_sender (response_with 0xdead None) = Some 0x180
  /\ em_receiver (response_with 0xdead None) = Some (sender test_bus)
  /\ em_fmt (response_with 0xdead None) = None
  /\ (exists register value,
         em_register (response_with 0xdead None) = Some register
         /\ 0 <= register <= 65535
         /\ em_value (response_with 0xdead None) = Some value
         /\ 0 <= value <= 65535)
  /\ (formatted_value (response_with 0xdead None) = Raise KeyError
      \/ exists r : pyval, formatted_value (response_with 0xdead None) = Ok r).
Proof.
  apply (read_returned_message test_bus 0x180 0xdeaf None 30
           (fresh 0 [(1, test_response)]) (response_with 0xdead None));
    reflexivity.
Defined.

(** The register of a response is not compared with the one asked for: the
    first frame being a response of the requested device to the session
    (whose address fits 11 bits), about any register at all, the read
    returns it. *)
Theorem read_ignores_register (self : ElsterBus) (rc rg : Z)
    (fmt : option string) (timeout : Z) (w : World)
    (gap register value : Z) (rest : list (Z * Message)) :
  simulate self = false -> 0 <= sender self <= 2047 ->
  0 < timeout -> gap <= timeout ->
  pending w = (gap, response_frame self rc register value) :: rest ->
  fst (read self None (Some rc) (Some rg) fmt timeout w)
  = Returned {| em_sender := Some rc;
                em_receiver := Some (sender self);
                em_register := Some (register mod 65536);
                em_type := TYPE_RESPONSE;
                em_value := Some (value mod 65536);
                em_fmt := fmt;
                em_data := encode_elster_data (sender self) register
                             (Some value) |}.
Proof.
  intros Hsim Hsender Htimeout Hgap Hp.
  assert (Hdec : decode_elster_data
                   (data (response_frame self rc register value)) 7
                 = Ok (TYPE_RESPONSE, sender self, register mod 65536,
                       Some (value mod 65536))).
  { cbn [response_frame data].
    rewrite (proj2 (decode_encode_mod (sender self) register) value).
    rewrite Z.mod_small by lia. reflexivity. }
  rewrite read_explicit by assumption.
  apply (read_loop_returns self rc fmt (clock w) timeout _
           (S (length (pending w))) (send (request_of self rc rg fmt) w));
    [cbn; lia|].
  exists [], gap, (response_frame self rc register value), rest.
  split; [exact Hp|]. split; [constructor|].
  split.
  { unfold acceptable. rewrite Hdec. cbn [response_frame arbitration_id].
    rewrite !Z.eqb_refl. reflexivity. }
  split.
  { rewrite ElsterMessage_init_frame, Hdec. reflexivity. }
  cbn. lia.
Qed.

Lemma read_ignores_register_witness :
  fst (read test_bus None (Some 0x180) (Some 0xdeaf) None 30
         (fresh 0 [(1, response_frame test_bus 0x180 0x0001 0xbabe)]))
  = Returned {| em_sender := Some 0x180;
                em_receiver := Some (sender test_bus);
                em_register := Some (0x0001 mod 65536);
                em_type := TYPE_RESPONSE;
                em_value := Some (0xbabe mod 65536);
                em_fmt := None;
                em_data := encode_elster_data (sender test_bus) 0x0001
                             (Some 0xbabe) |}.
Proof.
  apply (read_ignores_register test_bus 0x180 0xdeaf None 30
           (fresh 0 [(1, response_frame test_bus 0x180 0x0001 0xbabe)])
           1 0x0001 0xbabe []); try reflexivity; cbn; lia.
Defined.

(** A simulated read never touches the bus: it returns the request itself,
    still of the request type and from the session, with the value 12345,
    which the formats print as 1234.5, 12.345 and 14640. *)
Theorem read_simulated (self : ElsterBus) (rc rg : Z) (fmt : option string)
    (timeout : Z) (w : World) :
  simulate self = true ->
  read self None (Some rc) (Some rg) fmt timeout w
  = (Returned (set_value (request_of self rc rg fmt) 12345), w)
  /\ (fmt = Some "dec_val"%string ->
      formatted_value (set_value (request_of self rc rg fmt) 12345)
      = Ok (PyStr "1234.5"))
  /\ (fmt = Some "mil_val"%string ->
      formatted_value (set_value (request_of self rc rg fmt) 12345)
      = Ok (PyStr "12.345"))
  /\ (fmt = Some "little_endian"%string ->
      formatted_value (set_value (request_of self rc rg fmt) 12345)
      = Ok (PyStr "14640"))
  /\ (truthy fmt = false ->
      formatted_value (set_value (request_of self rc rg fmt) 12345)
      = Ok (PyInt 12345)).
Proof.
  intros Hsim. split.
  { unfold read. cbn. rewrite Hsim. reflexivity. }
  unfold formatted_value.
  cbn [set_value request_of em_fmt em_value].
  split; [intros ->; reflexivity|].
  split; [intros ->; reflexivity|].
  split; [intros ->; reflexivity|].
  intros ->. reflexivity.
Qed.

Lemma read_simulated_witness :
  read {| channel := "dummy"; sender := 0x123; config := ∅; simulate := true |}
    None (Some 0x180) (Some 0xdeaf) None 30 silent
  = (Returned
       (set_value
          (request_of
             {| channel := "dummy"; sender := 0x123; config := ∅;
                simulate := true |} 0x180 0xdeaf None) 12345),
     silent).
Proof.
  apply (read_simulated
           {| channel := "dummy"; sender := 0x123; config := ∅;
              simulate := true |} 0x180 0xdeaf None 30 silent).
  reflexivity.
Defined.

(** ** Frames that fail to decode are reported, and the read goes on *)

Lemma frame_error_init (m : Message) (fmt : option string) (e : exn) :
  ElsterMessage_init None None None (Some m) fmt = Raise e
  <-> frame_error m = Some e.
Proof.
  rewrite ElsterMessage_init_frame. unfold frame_error.
  destruct (decode_elster_data (data m) 7) as [[[[type rcv] register] value]|e'];
    split; intros H; try discriminate; congruence.
Qed.

(** What the loop body does with a frame that is not acceptable: it reports
    the frame's decoding error when it has one, and discards the frame
    otherwise. *)
Lemma read_iteration_nonacceptable (self : ElsterBus) (rc : Z)
    (fmt : option string) (m : Message) :
  acceptable self rc m = false ->
  read_iteration self (Some rc) fmt (Some m)
  = match frame_error m with
    | Some e => Reported e
    | None => Discarded
    end.
Proof.
  intros Hacc.
  destruct (read_iteration_frame self rc fmt m)
    as [(Hacc' & _)|(_ & [Hd|(e & Hinit & Hrep)])]; [congruence| |].
  - destruct (frame_error m) as [e|] eqn:He; [|exact Hd].
    apply frame_error_init with (fmt := fmt) in He.
    destruct (read_iteration_failure self (Some rc) fmt m e He) as [_ Hrep].
    congruence.
  - apply frame_error_init in Hinit. rewrite Hinit. exact Hrep.
Qed.

Lemma frame_errors_cons (gap : Z) (m : Message) (frames : list (Z * Message)) :
  frame_errors ((gap, m) :: frames)
  = match frame_error m with
    | Some e => e :: frame_errors frames
    | None => frame_errors frames
    end.
Proof. unfold frame_errors. cbn. destruct (frame_error m); reflexivity. Qed.

(** The loop takes the frames that are not acceptable off the transport one
    by one, as long as they reach it: each costs its gap and one call of
    [recv] with the whole timeout, and leaves its decoding error, when it
    has one, among what is printed. *)
Lemma read_loop_skip (self : ElsterBus) (rc : Z) (fmt : option string)
    (start_time timeout : Z) (rest : list (Z * Message)) :
  forall (pre : list (Z * Message)) (fuel : nat) (w : World),
    pending w = pre ++ rest ->
    Forall (fun x => acceptable self rc x.2 = false) pre ->
    arrives (start_time + timeout) timeout (clock w) pre ->
    read_loop (length pre + fuel) self (Some rc) fmt start_time timeout w
    = read_loop fuel self (Some rc) fmt start_time timeout
        {| clock := clock w + total_gap pre; pending := rest;
           sent := sent w;
           recv_timeouts := recv_timeouts w ++ replicate (length pre) timeout;
           printed := printed w ++ frame_errors pre |}.
Proof.
  induction pre as [|[gap m] pre IH]; intros fuel w Hp Hpre Harr.
  - destruct w as [c p s r pr]. cbn in Hp. subst p. cbn.
    rewrite Z.add_0_r, !app_nil_r. reflexivity.
  - apply Forall_cons in Hpre as [Hm Hpre]. cbn [snd] in Hm.
    cbn [arrives] in Harr. destruct Harr as (Hnow & Hgap & Harr).
    cbn [length Nat.add].
    rewrite (read_loop_recv_frame (length pre + fuel) self (Some rc) fmt
               start_time timeout w gap m (pre ++ rest) Hnow Hp Hgap).
    cbn zeta. rewrite (read_iteration_nonacceptable self rc fmt m Hm).
    rewrite total_gap_cons, frame_errors_cons.
    destruct (frame_error m) as [e|].
    + rewrite IH by (cbn; auto). cbn [print clock pending sent recv_timeouts printed].
      do 2 f_equal; [lia| |].
      * rewrite <- app_assoc. reflexivity.
      * rewrite <- app_assoc. reflexivity.
    + rewrite IH by (cbn; auto). cbn [clock pending sent recv_timeouts printed].
      do 2 f_equal; [lia|].
      rewrite <- app_assoc. reflexivity.
Qed.

(** [read] never lets a frame error out. *)
Lemma read_no_frame_error (self : ElsterBus) (name : option string)
    (receiver register : option Z) (fmt : option string) (timeout : Z)
    (w : World) :
  fst (read self name receiver register fmt timeout w)
  <> Raised ElsterDataSizeError
  /\ fst (read self name receiver register fmt timeout w)
     <> Raised ElsterDataByte2Error.
Proof.
  pose proof (read_outcomes self name receiver register fmt timeout w) as H.
  split; intros He; rewrite He in H;
    destruct H as [H|[H|[H|H]]]; discriminate.
Qed.

(** C5. A delivered frame that fails to decode raises one of the two frame
    errors (of size or of byte 2), which the loop body catches and reports.
    In a read on a real bus, let the frames [pre] reach the receive loop,
    none of them acceptable: the loop goes on past every one of them, and
    the decoding errors of [pre], in the order of the frames, are what the
    read has printed when it comes to the frames that follow; an acceptable
    frame arriving next in time is returned, and a deadline passed by then
    ends the read with the time-out. No read ever raises a frame error. *)
Theorem decode_failures_stay_inside (self : ElsterBus) (rc rg : Z)
    (fmt : option string) (timeout : Z) (w : World)
    (pre rest : list (Z * Message)) :
  simulate self = false ->
  pending w = pre ++ rest ->
  Forall (fun x => acceptable self rc x.2 = false) pre ->
  arrives (clock w + timeout) timeout (clock w) pre ->
  (forall (receiver : option Z) (fmt' : option string) (m : Message)
          (e : exn),
      ElsterMessage_init None None None (Some m) fmt' = Raise e ->
      (e = ElsterDataSizeError \/ e = ElsterDataByte2Error)
      /\ read_iteration self receiver fmt' (Some m) = Reported e
      /\ (forall gap : Z, (gap, m) ∈ pre -> e ∈ frame_errors pre))
  /\ (forall (gap : Z) (m : Message) (post : list (Z * Message)),
         rest = (gap, m) :: post ->
         acceptable self rc m = true ->
         total_gap pre < timeout -> gap <= timeout ->
         exists msg : ElsterMessage,
           ElsterMessage_init None None None (Some m) fmt = Ok msg
           /\ read self None (Some rc) (Some rg) fmt timeout w
              = (Returned msg,
                 {| clock := clock w + total_gap pre + gap;
                    pending := post;
                    sent := sent w ++ [request_of self rc rg fmt];
                    recv_timeouts :=
                      recv_timeouts w ++ replicate (S (length pre)) timeout;
                    printed := printed w ++ frame_errors pre |}))
  /\ (timeout <= total_gap pre ->
      read self None (Some rc) (Some rg) fmt timeout w
      = (Raised ElsterReadTimedOut,
         {| clock := clock w + total_gap pre;
            pending := rest;
            sent := sent w ++ [request_of self rc rg fmt];
            recv_timeouts := recv_timeouts w ++ replicate (length pre) timeout;
            printed := printed w ++ frame_errors pre |}))
  /\ (forall (name : option string) (receiver register : option Z)
             (fmt' : option string) (timeout' : Z) (w' : World),
         fst (read self name receiver register fmt' timeout' w')
         <> Raised ElsterDataSizeError
         /\ fst (read self name receiver register fmt' timeout' w')
            <> Raised ElsterDataByte2Error).
Proof.
  intros Hsim Hp Hpre Harr.
  assert (Hread :
            read self None (Some rc) (Some rg) fmt timeout w
            = read_loop (S (length rest)) self (Some rc) fmt (clock w) timeout
                {| clock := clock w + total_gap pre; pending := rest;
                   sent := sent w ++ [request_of self rc rg fmt];
                   recv_timeouts :=
                     recv_timeouts w ++ replicate (length pre) timeout;
                   printed := printed w ++ frame_errors pre |}).
  { rewrite read_explicit by assumption.
    rewrite Hp, length_app.
    replace (S (length pre + length rest))
      with (length pre + S (length rest))%nat by lia.
    rewrite (read_loop_skip self rc fmt (clock w) timeout rest pre
               (S (length rest)) (send (request_of self rc rg fmt) w));
      [reflexivity|exact Hp|exact Hpre|exact Harr]. }
  split; [|split; [|split]].
  - intros receiver fmt' m e Hinit.
    destruct (read_iteration_failure self receiver fmt' m e Hinit)
      as [He Hrep].
    split; [exact He|]. split; [exact Hrep|].
    intros gap Hin. apply frame_error_init in Hinit.
    unfold frame_errors. apply list_elem_of_omap.
    exists (gap, m). split; [exact Hin|exact Hinit].
  - intros gap m post -> Hacc Hearly Hgap.
    destruct (read_iteration_frame self rc fmt m)
      as [(_ & msg & Hinit & Hstep)|[Hacc' _]]; [|congruence].
    exists msg. split; [exact Hinit|].
    rewrite Hread.
    rewrite (read_loop_recv_frame (length ((gap, m) :: post)) self (Some rc)
               fmt (clock w) timeout _ gap m post);
      [|cbn; lia|reflexivity|exact Hgap].
    cbn zeta. rewrite Hstep.
    cbn [clock pending sent recv_timeouts printed].
    do 2 f_equal.
    rewrite <- app_assoc. f_equal.
    change [timeout] with (replicate 1 timeout).
    rewrite <- replicate_add. f_equal. lia.
  - intros Hlate. rewrite Hread.
    apply read_loop_timed_out. cbn. lia.
  - intros name receiver register fmt' timeout' w'.
    apply read_no_frame_error.
Qed.

Lemma decode_failures_stay_inside_witness :
  read test_bus None (Some 0x180) (Some 0xdeaf) None 30
    (fresh 0 [(1, stray_frame); (1, unmarked_frame); (1, test_response)])
  = (Returned (response_with 0xdead None),
     {| clock := 3; pending := [];
        sent := [request_of test_bus 0x180 0xdeaf None];
        recv_timeouts := [30; 30; 30];
        printed := [ElsterDataSizeError; ElsterDataByte2Error] |}).
Proof.
  destruct (decode_failures_stay_inside test_bus 0x180 0xdeaf None 30
              (fresh 0 [(1, stray_frame); (1, unmarked_frame);
                        (1, test_response)])
              [(1, stray_frame); (1, unmarked_frame)] [(1, test_response)]
              eq_refl eq_refl)
    as (_ & Hreturn & _).
  - repeat constructor.
  - cbn. lia.
  - destruct (Hreturn 1 test_response [] eq_refl eq_refl)
      as (msg & Hinit & Hread); [cbn; lia|lia|].
    injection Hinit as <-. exact Hread.
Defined.

